(** * Tiny-Blog: the Markdown conversion engine of [bear.py]

    A shallow embedding of [parse_markdown], [escape_html],
    [process_inline] and [parse_frontmatter], with the Python string
    methods and the fragment of the [re] module they rely on, followed by
    the properties of the engine.

    A Python [str] is modelled by [string]: a character is a code point in
    U+0000..U+00FF, the range of [ascii].  On that range [\d] is [0-9] and
    [str.isspace] is the set given by [isspace] below. *)

From Stdlib Require Import String Ascii List Bool Arith Lia.
Import ListNotations.
Local Open Scope string_scope.

(** ** Exceptions *)

Inductive exn : Type :=
| re_error         (* re.error: invalid group reference in a template *)
| AttributeError   (* a method called on None *)
| IndexError.      (* Match.group: no such group *)

Inductive result (A : Type) : Type :=
| Ok (a : A)
| Raise (e : exn).

Arguments Ok {A} a.
Arguments Raise {A} e.

Definition bind {A B : Type} (r : result A) (k : A -> result B) : result B :=
  match r with
  | Ok a => k a
  | Raise e => Raise e
  end.

Notation "x <- r ;; k" := (bind r (fun x => k))
  (at level 61, r at next level, right associativity).

(** ** Python string methods *)

Module Str.

Definition newline : ascii := "010"%char.
Definition dquote : ascii := "034"%char.

(** The code point of [c] lies in [lo..hi]. *)
Definition code_in (lo hi : nat) (c : ascii) : bool :=
  ((lo <=? nat_of_ascii c) && (nat_of_ascii c <=? hi))%nat.

(** [line.startswith(p)] *)
Fixpoint startswith (p line : string) : bool :=
  match p with
  | EmptyString => true
  | String a p' =>
      match line with
      | EmptyString => false
      | String b line' => Ascii.eqb a b && startswith p' line'
      end
  end.

(** [s[k:]] *)
Fixpoint slice_from (k : nat) (s : string) : string :=
  match k with
  | 0 => s
  | S k' =>
      match s with
      | EmptyString => EmptyString
      | String _ s' => slice_from k' s'
      end
  end.

(** [s[:k]] *)
Fixpoint slice_to (k : nat) (s : string) : string :=
  match k with
  | 0 => EmptyString
  | S k' =>
      match s with
      | EmptyString => EmptyString
      | String c s' => String c (slice_to k' s')
      end
  end.

(** [c.isspace()] for a code point below U+0100: TAB, LF, VT, FF, CR,
    FS, GS, RS, US, SPACE, NEL and NBSP. *)
Definition isspace (c : ascii) : bool :=
  code_in 9 13 c || code_in 28 32 c || code_in 133 133 c || code_in 160 160 c.

Fixpoint lstrip (s : string) : string :=
  match s with
  | EmptyString => EmptyString
  | String c s' => if isspace c then lstrip s' else s
  end.

Fixpoint rstrip (s : string) : string :=
  match s with
  | EmptyString => EmptyString
  | String c s' =>
      match rstrip s' with
      | EmptyString => if isspace c then EmptyString else String c EmptyString
      | r => String c r
      end
  end.

(** [s.strip()] *)
Definition strip (s : string) : string := rstrip (lstrip s).

(** [s.split(sep)] for a separator of one character *)
Fixpoint split (sep : ascii) (s : string) : list string :=
  match s with
  | EmptyString => [EmptyString]
  | String c s' =>
      if Ascii.eqb c sep then EmptyString :: split sep s'
      else match split sep s' with
           | [] => [String c EmptyString]
           | w :: ws => String c w :: ws
           end
  end.

(** [sep.join(parts)] *)
Definition join (sep : string) (parts : list string) : string :=
  String.concat sep parts.

(** [s.replace(old, new)]: the occurrences of [old] are replaced from the
    left and do not overlap; [skip] counts the characters of an occurrence
    that are still to be passed over. *)
Fixpoint replace_from (old new : string) (skip : nat) (s : string) : string :=
  match s with
  | EmptyString => EmptyString
  | String c s' =>
      match skip with
      | S k => replace_from old new k s'
      | 0 =>
          if startswith old s
          then new ++ replace_from old new (String.length old - 1) s'
          else String c (replace_from old new 0 s')
      end
  end.

Fixpoint between (new s : string) : string :=
  match s with
  | EmptyString => EmptyString
  | String c s' => String c (new ++ between new s')
  end.

Definition replace (old new s : string) : string :=
  match old with
  | EmptyString => new ++ between new s
  | _ => replace_from old new 0 s
  end.

(** [needle in s] *)
Fixpoint contains (needle s : string) : bool :=
  startswith needle s
  || match s with
     | EmptyString => false
     | String _ s' => contains needle s'
     end.

End Str.

(** ** The fragment of [re] used by the engine *)

Module Re.

(** Character classes. *)
Inductive cclass : Type :=
| NoneOf (cs : string)   (* [^cs] *)
| Digit                  (* \d *)
| Letter                 (* [a-zA-Z] *)
| Dot.                   (* . : any character but a newline *)

Fixpoint mem (c : ascii) (cs : string) : bool :=
  match cs with
  | EmptyString => false
  | String d cs' => Ascii.eqb c d || mem c cs'
  end.

Definition in_class (k : cclass) (c : ascii) : bool :=
  match k with
  | NoneOf cs => negb (mem c cs)
  | Digit => Str.code_in 48 57 c
  | Letter => Str.code_in 97 122 c || Str.code_in 65 90 c
  | Dot => negb (Ascii.eqb c Str.newline)
  end.

(** The items of a pattern.  Every capture group of the source wraps one
    greedy repetition of a class, which is [Rep true]. *)
Inductive item : Type :=
| Lit (c : ascii)                                  (* a literal character *)
| Rep (capture : bool) (k : cclass) (least : nat)  (* k* and k+, greedy *)
| NotBehind (k : cclass)                           (* (?<!k) *)
| NotAhead (k : cclass)                            (* (?!k) *)
| Bol                                              (* ^ *)
| Eol.                                             (* $ *)

Definition pattern : Type := list item.

Definition star (k : cclass) : item := Rep false k 0.
Definition plus (k : cclass) : item := Rep false k 1.
Definition cap_star (k : cclass) : item := Rep true k 0.
Definition cap_plus (k : cclass) : item := Rep true k 1.

(** Length of the longest prefix of [s] made of characters of [k]. *)
Fixpoint span (k : cclass) (s : string) : nat :=
  match s with
  | EmptyString => 0
  | String c s' => if in_class k c then S (span k s') else 0
  end.

(** The character before the cursor once [taken] has been consumed. *)
Fixpoint last_of (prev : option ascii) (taken : string) : option ascii :=
  match taken with
  | EmptyString => prev
  | String c taken' => last_of (Some c) taken'
  end.

(** Backtracking of a greedy repetition: try [n] characters, then [n-1],
    down to [least]. *)
Fixpoint descend {A : Type} (least : nat) (try : nat -> option A) (n : nat)
  : option A :=
  if (n <? least)%nat then None
  else match try n with
       | Some r => Some r
       | None =>
           match n with
           | 0 => None
           | S n' => descend least try n'
           end
       end.

(** A match found at the cursor: the captured groups in order and the
    number of characters consumed. *)
Definition found : Type := (list string * nat)%type.

Definition advance (n : nat) (g : option string) (r : option found)
  : option found :=
  match r with
  | None => None
  | Some (gs, m) =>
      Some (match g with Some w => w :: gs | None => gs end, n + m)
  end.

(** Match the items [p] at the cursor: [prev] is the character before it
    ([None] at the start of the string), [s] the text from it on. *)
Fixpoint match_at (p : pattern) (prev : option ascii) (s : string)
  : option found :=
  match p with
  | [] => Some ([], 0)
  | Lit c :: p' =>
      match s with
      | EmptyString => None
      | String d s' =>
          if Ascii.eqb c d then advance 1 None (match_at p' (Some d) s')
          else None
      end
  | Rep capture k least :: p' =>
      descend least
        (fun n =>
           let w := Str.slice_to n s in
           advance n (if capture then Some w else None)
             (match_at p' (last_of prev w) (Str.slice_from n s)))
        (span k s)
  | NotBehind k :: p' =>
      match prev with
      | Some c => if in_class k c then None else match_at p' prev s
      | None => match_at p' prev s
      end
  | NotAhead k :: p' =>
      match s with
      | String c _ => if in_class k c then None else match_at p' prev s
      | EmptyString => match_at p' prev s
      end
  | Bol :: p' =>
      match prev with
      | None => match_at p' prev s
      | Some _ => None
      end
  | Eol :: p' =>
      match s with
      | EmptyString => match_at p' prev s
      | String c EmptyString =>
          if Ascii.eqb c Str.newline then match_at p' prev s else None
      | _ => None
      end
  end.

(** A match object: the whole match and its groups. *)
Record match_obj : Type := MatchObj { whole : string; groups : list string }.

(** [re.match(p, s)] *)
Definition re_match (p : pattern) (s : string) : option match_obj :=
  match match_at p None s with
  | Some (gs, n) => Some (MatchObj (Str.slice_to n s) gs)
  | None => None
  end.

(** [m.group(n)] *)
Definition group (n : nat) (m : match_obj) : result string :=
  match n with
  | 0 => Ok (whole m)
  | S i =>
      match nth_error (groups m) i with
      | Some w => Ok w
      | None => Raise IndexError
      end
  end.

(** Replacement templates: text and group references [\n]. *)
Inductive tpart : Type :=
| Text (s : string)
| Ref (n : nat).

Definition template : Type := list tpart.

Fixpoint expand (t : template) (gs : list string) : string :=
  match t with
  | [] => EmptyString
  | Text w :: t' => w ++ expand t' gs
  | Ref n :: t' => nth (n - 1) gs EmptyString ++ expand t' gs
  end.

Fixpoint group_count (p : pattern) : nat :=
  match p with
  | [] => 0
  | Rep true _ _ :: p' => S (group_count p')
  | _ :: p' => group_count p'
  end.

(** A template is compiled before any matching: a reference to a group
    the pattern does not have is an error. *)
Definition template_ok (p : pattern) (t : template) : bool :=
  forallb (fun x => match x with
                    | Text _ => true
                    | Ref n => ((1 <=? n) && (n <=? group_count p))%nat
                    end) t.

(** The scan of [re.sub]: leftmost matches, not overlapping.  [skip] counts
    the characters of the last match still to be passed over.  No pattern
    of the engine matches the empty string; for an empty match the
    replacement is inserted and the scan moves on by one character. *)
Fixpoint sub_from (p : pattern) (t : template) (skip : nat)
  (prev : option ascii) (s : string) : string :=
  match s with
  | EmptyString =>
      match skip, match_at p prev s with
      | 0, Some (gs, _) => expand t gs
      | _, _ => EmptyString
      end
  | String c s' =>
      match skip with
      | S k => sub_from p t k (Some c) s'
      | 0 =>
          match match_at p prev s with
          | Some (gs, S n) => expand t gs ++ sub_from p t n (Some c) s'
          | Some (gs, 0) => expand t gs ++ String c (sub_from p t 0 (Some c) s')
          | None => String c (sub_from p t 0 (Some c) s')
          end
      end
  end.

(** [re.sub(p, t, s)] *)
Definition sub (p : pattern) (t : template) (s : string) : result string :=
  if template_ok p t then Ok (sub_from p t 0 None s) else Raise re_error.

End Re.

(** ** The conversion engine *)

Module Bear.
Import Str Re.

Definition q : string := String dquote EmptyString.
Definition nl : string := String newline EmptyString.

(** [escape_html]:
    [text.replace('&', '&amp;').replace('<', '&lt;').replace('>', '&gt;')] *)
Definition escape_html (text : string) : string :=
  replace ">" "&gt;" (replace "<" "&lt;" (replace "&" "&amp;" text)).

(** The patterns and templates of [process_inline], in source order. *)

(* The image rule: an exclamation mark, then the pattern of the link rule
   with a star for the plus of its first group; replaced by
   <img src="\2" alt="\1">. *)
Definition image_re : pattern :=
  [Lit "!"; Lit "["; cap_star (NoneOf "]"); Lit "]"; Lit "(";
   cap_plus (NoneOf ")"); Lit ")"].
Definition image_to : template :=
  [Text ("<img src=" ++ q); Ref 2; Text (q ++ " alt=" ++ q); Ref 1;
   Text (q ++ ">")].

(* re.sub of "\[([^\]]+)\]\(([^)]+)\)" by <a href="\2">\1</a> *)
Definition link_re : pattern :=
  [Lit "["; cap_plus (NoneOf "]"); Lit "]"; Lit "(";
   cap_plus (NoneOf ")"); Lit ")"].
Definition link_to : template :=
  [Text ("<a href=" ++ q); Ref 2; Text (q ++ ">"); Ref 1; Text "</a>"].

(* re.sub of "`([^`]+)`" by <code>\1</code> *)
Definition code_re : pattern := [Lit "`"; cap_plus (NoneOf "`"); Lit "`"].
Definition code_to : template := [Text "<code>"; Ref 1; Text "</code>"].

(* re.sub of "==([^=]+)==" by <mark>\1</mark> *)
Definition mark_re : pattern :=
  [Lit "="; Lit "="; cap_plus (NoneOf "="); Lit "="; Lit "="].
Definition mark_to : template := [Text "<mark>"; Ref 1; Text "</mark>"].

(* re.sub of "\*\*([^*]+)\*\*", then of "__([^_]+)__", by
   <strong>\1</strong> *)
Definition bold_star_re : pattern :=
  [Lit "*"; Lit "*"; cap_plus (NoneOf "*"); Lit "*"; Lit "*"].
Definition bold_under_re : pattern :=
  [Lit "_"; Lit "_"; cap_plus (NoneOf "_"); Lit "_"; Lit "_"].
Definition strong_to : template := [Text "<strong>"; Ref 1; Text "</strong>"].

(* re.sub of "\*([^*]+)\*", then of "(?<![a-zA-Z])_([^_]+)_(?![a-zA-Z])",
   by <em>\1</em> *)
Definition italic_star_re : pattern :=
  [Lit "*"; cap_plus (NoneOf "*"); Lit "*"].
Definition italic_under_re : pattern :=
  [NotBehind Letter; Lit "_"; cap_plus (NoneOf "_"); Lit "_"; NotAhead Letter].
Definition em_to : template := [Text "<em>"; Ref 1; Text "</em>"].

(** [process_inline] *)
Definition process_inline (text : string) : result string :=
  text <- sub image_re image_to text;;
  text <- sub link_re link_to text;;
  text <- sub code_re code_to text;;
  text <- sub mark_re mark_to text;;
  text <- sub bold_star_re strong_to text;;
  text <- sub bold_under_re strong_to text;;
  text <- sub italic_star_re em_to text;;
  text <- sub italic_under_re em_to text;;
  Ok text.

(** The patterns of [parse_markdown]. *)

(* re.match of "^\d+\. " *)
Definition ol_prefix_re : pattern := [Bol; plus Digit; Lit "."; Lit " "].
(* re.match of "^(\d+)\. (.+)$" *)
Definition ol_item_re : pattern :=
  [Bol; cap_plus Digit; Lit "."; Lit " "; cap_plus Dot; Eol].

(** The local variables of [parse_markdown]. *)
Record state : Type := State {
  html_lines : list string;
  in_code_block : bool;
  in_ul : bool;
  in_ol : bool;
  in_blockquote : bool;
  blockquote_lines : list string
}.

Definition initial : state := State [] false false false false [].

(** [html_lines.append(h)] *)
Definition emit (h : string) (st : state) : state :=
  State (html_lines st ++ [h])%list (in_code_block st) (in_ul st) (in_ol st)
    (in_blockquote st) (blockquote_lines st).

Definition set_in_code_block (b : bool) (st : state) : state :=
  State (html_lines st) b (in_ul st) (in_ol st) (in_blockquote st)
    (blockquote_lines st).

Definition set_in_ul (b : bool) (st : state) : state :=
  State (html_lines st) (in_code_block st) b (in_ol st) (in_blockquote st)
    (blockquote_lines st).

Definition set_in_ol (b : bool) (st : state) : state :=
  State (html_lines st) (in_code_block st) (in_ul st) b (in_blockquote st)
    (blockquote_lines st).

(** [in_blockquote = b; blockquote_lines = []] *)
Definition reset_blockquote (b : bool) (st : state) : state :=
  State (html_lines st) (in_code_block st) (in_ul st) (in_ol st) b [].

(** [blockquote_lines.append(r)] *)
Definition add_quote (r : string) (st : state) : state :=
  State (html_lines st) (in_code_block st) (in_ul st) (in_ol st)
    (in_blockquote st) (blockquote_lines st ++ [r])%list.

(** [line.startswith('- ') or line.startswith('* ')] *)
Definition is_bullet (line : string) : bool :=
  startswith "- " line || startswith "* " line.

(** [line.strip() in ['---', '***', '___']] *)
Definition is_rule (line : string) : bool :=
  existsb (String.eqb (strip line)) ["---"; "***"; "___"].

Definition matches (p : pattern) (line : string) : bool :=
  match re_match p line with
  | Some _ => true
  | None => false
  end.

(** [f'<blockquote>{" ".join(blockquote_lines)}</blockquote>'] *)
Definition blockquote_html (parts : list string) : string :=
  "<blockquote>" ++ join " " parts ++ "</blockquote>".

Definition wrap (tag inner : string) : string :=
  "<" ++ tag ++ ">" ++ inner ++ "</" ++ tag ++ ">".

(** The block parser, over the inline transformer it calls. *)
Section Parser.

Variable inline : string -> result string.

(** "Close lists if needed" *)
Definition close_lists (line : string) (st : state) : state :=
  let st :=
    if in_ul st && negb (is_bullet line)
    then set_in_ul false (emit "</ul>" st) else st in
  if in_ol st && negb (matches ol_prefix_re line)
  then set_in_ol false (emit "</ol>" st) else st.

(** The body of the loop from "Headers" on. *)
Definition block_line (st : state) (line : string) : result state :=
  if startswith "#### " line then
    r <- inline (slice_from 5 line);; Ok (emit (wrap "h4" r) st)
  else if startswith "### " line then
    r <- inline (slice_from 4 line);; Ok (emit (wrap "h3" r) st)
  else if startswith "## " line then
    r <- inline (slice_from 3 line);; Ok (emit (wrap "h2" r) st)
  else if startswith "# " line then
    r <- inline (slice_from 2 line);; Ok (emit (wrap "h1" r) st)
  else if is_rule line then
    Ok (emit "<hr>" st)
  else if is_bullet line then
    let st := if in_ul st then st else set_in_ul true (emit "<ul>" st) in
    r <- inline (slice_from 2 line);; Ok (emit (wrap "li" r) st)
  else
    match re_match ol_item_re line with
    | Some ol_match =>
        let st := if in_ol st then st else set_in_ol true (emit "<ol>" st) in
        g <- group 2 ol_match;;
        r <- inline g;; Ok (emit (wrap "li" r) st)
    | None =>
        if String.eqb (strip line) EmptyString then Ok (emit EmptyString st)
        else r <- inline line;; Ok (emit (wrap "p" r) st)
    end.

(** One iteration of [for line in lines]. *)
Definition parse_line (st : state) (line : string) : result state :=
  if startswith "```" line then
    Ok (if in_code_block st
        then set_in_code_block false (emit "</code></pre>" st)
        else set_in_code_block true (emit "<pre><code>" st))
  else if in_code_block st then
    Ok (emit (escape_html line) st)
  else
    let st := close_lists line st in
    if startswith "> " line then
      let st := if in_blockquote st then st else reset_blockquote true st in
      r <- inline (slice_from 2 line);; Ok (add_quote r st)
    else
      let st :=
        if in_blockquote st
        then reset_blockquote false
               (emit (blockquote_html (blockquote_lines st)) st)
        else st in
      block_line st line.

Fixpoint parse_loop (st : state) (lines : list string) : result state :=
  match lines with
  | [] => Ok st
  | line :: rest => st' <- parse_line st line;; parse_loop st' rest
  end.

(** "Close open elements" *)
Definition close_open_elements (st : state) : state :=
  let st := if in_ul st then emit "</ul>" st else st in
  let st := if in_ol st then emit "</ol>" st else st in
  if in_blockquote st
  then emit (blockquote_html (blockquote_lines st)) st else st.

(** [parse_markdown] after [lines = text.split('\n')]. *)
Definition parse_lines (lines : list string) : result string :=
  st <- parse_loop initial lines;;
  Ok (join nl (html_lines (close_open_elements st))).

End Parser.

(** [parse_markdown] *)
Definition parse_markdown (text : string) : result string :=
  parse_lines process_inline (split newline text).

(** The spec's names for the two entry points. *)
Definition renderInline : string -> result string := process_inline.
Definition renderBody : list string -> result string :=
  parse_lines process_inline.

End Bear.


(** ** Notions used to state the properties *)

Module Notions.
Import Str Re Bear.

(** The block modes other than the code fence, read off the flags. *)
Inductive mode : Type := Normal | InBulletList | InNumberedList | InBlockquote.

Definition mode_of (st : state) : mode :=
  if in_ul st then InBulletList
  else if in_ol st then InNumberedList
  else if in_blockquote st then InBlockquote
  else Normal.

(** At most one of [in_ul], [in_ol], [in_blockquote] is set. *)
Definition exclusive (st : state) : bool :=
  negb (in_ul st && in_ol st) && negb (in_ul st && in_blockquote st)
  && negb (in_ol st && in_blockquote st).

(** What closes the open block of [st]. *)
Definition closing (st : state) : string :=
  match mode_of st with
  | InBulletList => "</ul>"
  | InNumberedList => "</ol>"
  | InBlockquote => blockquote_html (blockquote_lines st)
  | Normal => EmptyString
  end.

(** What opens a block. *)
Definition opening (m : mode) : list string :=
  match m with
  | InBulletList => ["<ul>"]
  | InNumberedList => ["<ol>"]
  | InBlockquote | Normal => []
  end.

(** The closing tags appended for the lists open when a line that is no
    list item is read. *)
Definition closed_lists (u o : bool) : list string :=
  ((if u then ["</ul>"] else []) ++ (if o then ["</ol>"] else []))%list.

(** What is appended for a numbered list or a blockquote open when a
    bullet item is read. *)
Definition closed_for_list (o b : bool) (bl : list string) : list string :=
  ((if o then ["</ol>"] else []) ++ (if b then [blockquote_html bl] else []))%list.

(** A line without the openers of the inline rules: no backtick, asterisk,
    underscore or opening bracket, and no two equals signs in a row. *)
Definition unstyled (line : string) : bool :=
  negb (contains "`" line) && negb (contains "*" line)
  && negb (contains "_" line) && negb (contains "==" line)
  && negb (contains "[" line).

(** The Markdown of an image and the element it stands for. *)
Definition image_md (alt url : string) : string :=
  "![" ++ alt ++ "](" ++ url ++ ")".
Definition img_html (url alt : string) : string :=
  "<img src=" ++ q ++ url ++ q ++ " alt=" ++ q ++ alt ++ q ++ ">".

(** The fragments [process_inline] yields for the lines [ls] once their
    first [k] characters are cut. *)
Definition inlined (k : nat) (ls frags : list string) : Prop :=
  map (fun l => process_inline (slice_from k l)) ls = map Ok frags.

(** The pattern [p] can only match where the text [w] starts. *)
Definition opens_with (w : string) (p : pattern) : Prop :=
  forall prev s, startswith w s = false -> match_at p prev s = None.

(** The escape of one character, and of each character of a string. *)
Definition escape_char (c : ascii) : string :=
  if Ascii.eqb c "&" then "&amp;"
  else if Ascii.eqb c "<" then "&lt;"
  else if Ascii.eqb c ">" then "&gt;"
  else String c EmptyString.

Fixpoint expand_chars (f : ascii -> string) (s : string) : string :=
  match s with
  | EmptyString => EmptyString
  | String c s' => f c ++ expand_chars f s'
  end.

(** The line makes the parser enter or leave a code fence. *)
Definition toggles_fence (st : state) (line : string) : Prop :=
  exists st', parse_line process_inline st line = Ok st'
              /\ in_code_block st' = negb (in_code_block st).

End Notions.

(** ** Further notions, for the properties beyond the claims *)

Module More.
Import Str Re Bear.

(** Everything appended for the blocks open when a line that continues
    none of them is read: the closing tags of the lists, then the flushed
    blockquote. *)
Definition closed_all (u o b : bool) (bl : list string) : list string :=
  ((if u then ["</ul>"] else []) ++ (if o then ["</ol>"] else [])
   ++ (if b then [blockquote_html bl] else []))%list.

(** Every character of [s] is in the class [k]. *)
Fixpoint all_in (k : cclass) (s : string) : bool :=
  match s with
  | EmptyString => true
  | String c s' => in_class k c && all_in k s'
  end.

(** No line of [lines] starts with the fence marker. *)
Definition no_fence (lines : list string) : Prop :=
  Forall (fun l => startswith "```" l = false) lines.

(** Every underscore of [s] comes straight after an ASCII letter, [prev]
    being the character before [s]. *)
Fixpoint inner_underscores (prev : option ascii) (s : string) : bool :=
  match s with
  | EmptyString => true
  | String c s' =>
      (if Ascii.eqb "_" c
       then match prev with
            | Some p => in_class Letter p
            | None => false
            end
       else true)
      && inner_underscores (Some c) s'
  end.

End More.

(** ** Front matter *)

Module Site.
Import Str Re.

(** [s.strip(chars)] *)
Fixpoint lstrip_chars (chars s : string) : string :=
  match s with
  | EmptyString => EmptyString
  | String c s' => if mem c chars then lstrip_chars chars s' else s
  end.

Fixpoint rstrip_chars (chars s : string) : string :=
  match s with
  | EmptyString => EmptyString
  | String c s' =>
      match rstrip_chars chars s' with
      | EmptyString => if mem c chars then EmptyString else String c EmptyString
      | r => String c r
      end
  end.

Definition strip_chars (chars s : string) : string :=
  rstrip_chars chars (lstrip_chars chars s).

(** The text before and the text after the first occurrence of [sep],
    which is not empty. *)
Fixpoint cut (sep s : string) : option (string * string) :=
  match s with
  | EmptyString => None
  | String c s' =>
      if startswith sep s
      then Some (EmptyString, slice_from (String.length sep) s)
      else match cut sep s' with
           | Some (a, b) => Some (String c a, b)
           | None => None
           end
  end.

(** [s.split(sep, maxsplit)] for a separator that is not empty *)
Fixpoint split_max (sep : string) (maxsplit : nat) (s : string)
  : list string :=
  match maxsplit with
  | 0 => [s]
  | S n =>
      match cut sep s with
      | Some (a, b) => a :: split_max sep n b
      | None => [s]
      end
  end.

(** A [dict] with string keys, in insertion order. *)
Definition dict : Type := list (string * string).

(** [d[k] = v]: a key already present keeps its place. *)
Fixpoint dict_set (k v : string) (d : dict) : dict :=
  match d with
  | [] => [(k, v)]
  | (k', v') :: d' =>
      if String.eqb k' k then (k', v) :: d' else (k', v') :: dict_set k v d'
  end.

(** [d.get(k)] *)
Fixpoint dict_get (k : string) (d : dict) : option string :=
  match d with
  | [] => None
  | (k', v') :: d' => if String.eqb k' k then Some v' else dict_get k d'
  end.

(** The double and the single quote, the characters the second [strip] of
    a value takes off. *)
Definition quotes : string := String dquote "'".

(** The loop of [parse_frontmatter] over the lines of the header; [None]
    is the [ValueError] of unpacking a list that has not two items. *)
Fixpoint read_lines (frontmatter : dict) (lines : list string)
  : option dict :=
  match lines with
  | [] => Some frontmatter
  | line :: rest =>
      if contains ":" line then
        match split_max ":" 1 line with
        | [key; value] =>
            read_lines
              (dict_set (strip key) (strip_chars quotes (strip value))
                 frontmatter)
              rest
        | _ => None
        end
      else read_lines frontmatter rest
  end.

(** [parse_frontmatter]; [None] is an exception ([ValueError] of the
    unpacking, [IndexError] of [parts[1]] and [parts[2]]). *)
Definition parse_frontmatter (content : string) : option (dict * string) :=
  if startswith "---" content then
    let parts := split_max "---" 2 content in
    if (3 <=? List.length parts)%nat then
      match nth_error parts 1, nth_error parts 2 with
      | Some header, Some body =>
          match read_lines [] (split newline (strip header)) with
          | Some frontmatter => Some (frontmatter, strip body)
          | None => None
          end
      | _, _ => None
      end
    else Some ([], content)
  else Some ([], content).

End Site.

(** ** Notions for the front matter *)

Module Written.
Import Str Re Bear Site.

(** The line of a header entry, and a document with its header written
    out. *)
Definition entry_line (kw : string * string) : string :=
  fst kw ++ ": " ++ snd kw.

Definition write_frontmatter (entries : list (string * string))
  (body : string) : string :=
  "---" ++ nl ++ join nl (map entry_line entries) ++ nl ++ "---" ++ body.

(** [s] is not empty and neither starts nor ends with white space. *)
Fixpoint last_not_space (s : string) : bool :=
  match s with
  | EmptyString => false
  | String c EmptyString => negb (isspace c)
  | String _ s' => last_not_space s'
  end.

Definition clean_ends (s : string) : bool :=
  match s with
  | EmptyString => false
  | String c _ => negb (isspace c) && last_not_space s
  end.

(** An entry that can be written on one line: key and value have clean
    ends and no newline, the key has no colon, and the line does not hold
    the marker. *)
Definition entry_ok (kw : string * string) : bool :=
  clean_ends (fst kw) && clean_ends (snd kw)
  && negb (contains ":" (fst kw)) && negb (contains nl (fst kw))
  && negb (contains nl (snd kw)) && negb (contains "---" (entry_line kw)).

(** What is kept of an entry: the value loses the quotes around it. *)
Definition stored (kw : string * string) : string * string :=
  (fst kw, strip_chars quotes (snd kw)).

(** The dictionary a sequence of assignments builds. *)
Definition dict_of (entries : list (string * string)) : dict :=
  fold_left (fun d kv => dict_set (fst kv) (snd kv) d) entries [].

End Written.

(** ** Facts about the string methods *)

Import Str Re Bear Notions More.

Lemma startswith_cut (p s : string) :
  startswith p s = true -> s = p ++ slice_from (String.length p) s.
Proof.
  revert s; induction p as [|a p IH]; intros s H; simpl in *.
  - reflexivity.
  - destruct s as [|b s]; [discriminate|].
    apply andb_prop in H as [Hab Hp].
    apply Ascii.eqb_eq in Hab; subst b.
    f_equal; now apply IH.
Qed.

Lemma slice_from_app (a b : string) : slice_from (String.length a) (a ++ b) = b.
Proof. induction a; simpl; auto. Qed.

Lemma slice_to_app (a b : string) : slice_to (String.length a) (a ++ b) = a.
Proof. induction a; simpl; f_equal; auto. Qed.

Lemma append_nil_r (s : string) : s ++ EmptyString = s.
Proof. induction s; simpl; f_equal; auto. Qed.

Lemma append_assoc (a b c : string) : (a ++ b) ++ c = a ++ (b ++ c).
Proof. induction a; simpl; f_equal; auto. Qed.

Lemma startswith_contains (w s : string) :
  startswith w s = true -> contains w s = true.
Proof. intros H; destruct s; simpl; rewrite H; reflexivity. Qed.

Lemma contains_false_inv (w : string) (c : ascii) (s : string) :
  contains w (String c s) = false ->
  startswith w (String c s) = false /\ contains w s = false.
Proof.
  intros H. change (contains w (String c s))
    with (startswith w (String c s) || contains w s) in H.
  now apply orb_false_elim in H.
Qed.

Lemma contains_longer (a : ascii) (w s : string) :
  contains w s = false -> contains (String a w) s = false.
Proof.
  induction s as [|b s IH]; intros H.
  - reflexivity.
  - apply contains_false_inv in H as [Hs Hc].
    change (contains (String a w) (String b s))
      with (startswith (String a w) (String b s) || contains (String a w) s).
    rewrite (IH Hc), orb_false_r. simpl.
    destruct (startswith w s) eqn:E; [|apply andb_false_r].
    apply startswith_contains in E; congruence.
Qed.

(** ** Facts about the matcher *)

Lemma descend_found {A : Type} (least : nat) (try : nat -> option A) (n : nat)
  (r : A) :
  descend least try n = Some r -> exists k, least <= k <= n /\ try k = Some r.
Proof.
  induction n as [|n IH]; simpl; intros H.
  - destruct (0 <? least)%nat eqn:E; [discriminate|].
    apply Nat.ltb_ge in E.
    destruct (try 0) eqn:T; [|discriminate].
    exists 0; split; [lia|congruence].
  - destruct (S n <? least)%nat eqn:E; [discriminate|].
    apply Nat.ltb_ge in E.
    destruct (try (S n)) eqn:T.
    + exists (S n); split; [lia|congruence].
    + destruct (IH H) as (k & Hk & Tk). exists k; split; [lia|exact Tk].
Qed.

Lemma descend_none {A : Type} (least : nat) (try : nat -> option A) (n : nat) :
  (forall k, try k = None) -> descend least try n = None.
Proof.
  intros H; induction n as [|n IH]; simpl;
    match goal with |- context [if ?b then _ else _] => destruct b end;
    rewrite ?H; auto.
Qed.

Lemma descend_first {A : Type} (least : nat) (try : nat -> option A) (n : nat)
  (r : A) :
  least <= n -> try n = Some r -> descend least try n = Some r.
Proof.
  intros Hn T. apply Nat.ltb_ge in Hn.
  destruct n; simpl in *; rewrite Hn, T; reflexivity.
Qed.

Lemma advance_found n g r gs m :
  advance n g r = Some (gs, m) ->
  exists gs' m', r = Some (gs', m')
    /\ gs = match g with Some w => w :: gs' | None => gs' end
    /\ m = n + m'.
Proof.
  destruct r as [[gs' m']|]; simpl; intros H; [|discriminate].
  inversion H; subst. eauto.
Qed.

(** A match binds exactly the groups of its pattern. *)
Lemma match_at_groups (p : pattern) :
  forall prev s gs n,
    match_at p prev s = Some (gs, n) -> List.length gs = group_count p.
Proof.
  induction p as [|i p IH]; intros prev s gs n H.
  - inversion H; reflexivity.
  - destruct i as [c|cap k least|k|k| |]; simpl in H.
    + destruct s as [|d s]; [discriminate|].
      destruct (Ascii.eqb c d); [|discriminate].
      apply advance_found in H as (gs' & m' & E & -> & _).
      eapply IH; eauto.
    + apply descend_found in H as (j & _ & H).
      apply advance_found in H as (gs' & m' & E & -> & _).
      apply IH in E. destruct cap; simpl; auto.
    + destruct prev as [c|]; [destruct (in_class k c); [discriminate|]|];
        eapply IH; eauto.
    + destruct s as [|c s]; [|destruct (in_class k c); [discriminate|]];
        eapply IH; eauto.
    + destruct prev; [discriminate|]. eapply IH; eauto.
    + destruct s as [|c [|d s]]; [| |discriminate].
      * eapply IH; eauto.
      * destruct (Ascii.eqb c newline); [|discriminate]. eapply IH; eauto.
Qed.

Lemma re_match_group (p : pattern) (s : string) (m : match_obj) (n : nat) :
  re_match p s = Some m -> 1 <= n <= group_count p ->
  exists g, group n m = Ok g.
Proof.
  unfold re_match. destruct (match_at p None s) as [[gs k]|] eqn:E;
    intros H Hn; inversion H; subst; clear H.
  apply match_at_groups in E.
  destruct n as [|i]; [lia|]. simpl.
  destruct (nth_error gs i) eqn:N; [eauto|].
  apply nth_error_None in N. lia.
Qed.

(** ** The inline transformer *)

(** The eight substitutions as one pure function. *)
Lemma process_inline_unfold (text : string) :
  process_inline text =
  Ok (sub_from italic_under_re em_to 0 None
       (sub_from italic_star_re em_to 0 None
         (sub_from bold_under_re strong_to 0 None
           (sub_from bold_star_re strong_to 0 None
             (sub_from mark_re mark_to 0 None
               (sub_from code_re code_to 0 None
                 (sub_from link_re link_to 0 None
                   (sub_from image_re image_to 0 None text)))))))).
Proof. reflexivity. Qed.

Lemma process_inline_total (text : string) :
  exists r, process_inline text = Ok r.
Proof. rewrite process_inline_unfold; eauto. Qed.

(** A pattern that can only match where the text [w] starts leaves a
    string without [w] as it is. *)
Lemma sub_from_absent (w : string) (p : pattern) (t : template) :
  opens_with w p ->
  forall s prev, contains w s = false -> sub_from p t 0 prev s = s.
Proof.
  intros Hp; induction s as [|c s IH]; intros prev H.
  - simpl. rewrite Hp; [reflexivity|].
    destruct (startswith w EmptyString) eqn:E; [|reflexivity].
    apply startswith_contains in E; congruence.
  - apply contains_false_inv in H as [Hs Hc].
    simpl. rewrite (Hp prev _ Hs). f_equal. now apply IH.
Qed.

Lemma opens_with_lit (c : ascii) (p : pattern) :
  opens_with (String c EmptyString) (Lit c :: p).
Proof.
  intros prev [|d s] H; simpl in *; [reflexivity|].
  rewrite andb_true_r in H. now rewrite H.
Qed.

Lemma opens_with_lit2 (c d : ascii) (p : pattern) :
  opens_with (String c (String d EmptyString)) (Lit c :: Lit d :: p).
Proof.
  intros prev [|a [|b s]] H; simpl in *; try reflexivity.
  - destruct (Ascii.eqb c a); reflexivity.
  - rewrite andb_true_r in H.
    destruct (Ascii.eqb c a); [|reflexivity].
    simpl in H. now rewrite H.
Qed.

Lemma opens_with_behind (k : cclass) (w : string) (p : pattern) :
  opens_with w p -> opens_with w (NotBehind k :: p).
Proof.
  intros Hp prev s H; simpl.
  destruct prev as [c|]; [destruct (in_class k c)|]; auto.
Qed.

Lemma unstyled_parts (line : string) :
  unstyled line = true ->
  contains "`" line = false /\ contains "*" line = false
  /\ contains "_" line = false /\ contains "==" line = false
  /\ contains "[" line = false.
Proof.
  unfold unstyled; intros H.
  repeat (apply andb_prop in H as [H ?]).
  repeat split; now apply negb_true_iff.
Qed.

(** C1 as stated fails on the nested example. *)
Lemma nested_bold_italic_not_rendered :
  renderInline "**a *b* c**" <> Ok "<strong>a <em>b</em> c</strong>".
Proof. vm_compute. discriminate. Qed.

(** C1, amended: [renderInline "**x**"] is [<strong>x</strong>] and
    [renderInline "*x*"] is [<em>x</em>]; in the nested example the bold
    rule does not apply, its body admitting no asterisk, and the two italic
    spans that the asterisks then pair into are rendered; emphasis nests
    when the inner span is written with underscores. *)
Theorem emphasis_examples :
  renderInline "**x**" = Ok "<strong>x</strong>"
  /\ renderInline "*x*" = Ok "<em>x</em>"
  /\ (forall prev, match_at bold_star_re prev "**a *b* c**" = None)
  /\ renderInline "**a *b* c**" = Ok "*<em>a </em>b<em> c</em>*"
  /\ renderInline "**a _b_ c**" = Ok "<strong>a <em>b</em> c</strong>".
Proof.
  repeat split; try (vm_compute; reflexivity).
Qed.

(** On an unstyled line each of the eight substitutions is the identity. *)
Lemma unstyled_rewrites (line : string) :
  unstyled line = true ->
  sub_from image_re image_to 0 None line = line
  /\ sub_from link_re link_to 0 None line = line
  /\ sub_from code_re code_to 0 None line = line
  /\ sub_from mark_re mark_to 0 None line = line
  /\ sub_from bold_star_re strong_to 0 None line = line
  /\ sub_from bold_under_re strong_to 0 None line = line
  /\ sub_from italic_star_re em_to 0 None line = line
  /\ sub_from italic_under_re em_to 0 None line = line.
Proof.
  intros H. apply unstyled_parts in H as (Hc & Hs & Hu & He & Hb).
  repeat split.
  - apply (sub_from_absent "![");
      [apply opens_with_lit2|now apply contains_longer].
  - apply (sub_from_absent "["); [apply opens_with_lit|assumption].
  - apply (sub_from_absent "`"); [apply opens_with_lit|assumption].
  - apply (sub_from_absent "=="); [apply opens_with_lit2|assumption].
  - apply (sub_from_absent "*"); [apply opens_with_lit|assumption].
  - apply (sub_from_absent "_"); [apply opens_with_lit|assumption].
  - apply (sub_from_absent "*"); [apply opens_with_lit|assumption].
  - apply (sub_from_absent "_");
      [apply opens_with_behind, opens_with_lit|assumption].
Qed.

Lemma process_inline_unstyled (line : string) :
  unstyled line = true -> process_inline line = Ok line.
Proof.
  intros H. rewrite process_inline_unfold.
  destruct (unstyled_rewrites line H)
    as (R1 & R2 & R3 & R4 & R5 & R6 & R7 & R8).
  now rewrite R1, R2, R3, R4, R5, R6, R7, R8.
Qed.

(** C9: [renderInline] is the identity on a line that has no backtick, no
    asterisk, no underscore, no opening bracket and no pair of equals
    signs. *)
Theorem renderInline_unstyled (line : string) :
  unstyled line = true -> renderInline line = Ok line.
Proof.
  intros H. unfold renderInline. rewrite process_inline_unfold.
  destruct (unstyled_rewrites line H)
    as (Image & Link & Code & Mark & Bold & Bold' & Italic & Italic').
  rewrite Image, Link, Code, Mark, Bold, Bold', Italic, Italic'.
  reflexivity.
Qed.

Lemma renderInline_unstyled_witness :
  unstyled "Plain text, with (round) brackets & a = sign!" = true
  /\ renderInline "Plain text, with (round) brackets & a = sign!"
     = Ok "Plain text, with (round) brackets & a = sign!".
Proof.
  split; [reflexivity|].
  apply (renderInline_unstyled "Plain text, with (round) brackets & a = sign!").
  reflexivity.
Defined.

(** ** The block parser never raises *)

Section Totality.

Variable inline : string -> result string.
Hypothesis inline_total : forall s, exists r, inline s = Ok r.

Ltac call_inline :=
  match goal with
  | |- context [bind (inline ?s) _] =>
      let r := fresh "r" in
      destruct (inline_total s) as [r ->]; cbn [bind]
  end.

Lemma block_line_total (st : state) (line : string) :
  exists st', block_line inline st line = Ok st'.
Proof.
  unfold block_line.
  destruct (startswith "#### " line); [call_inline; eauto|].
  destruct (startswith "### " line); [call_inline; eauto|].
  destruct (startswith "## " line); [call_inline; eauto|].
  destruct (startswith "# " line); [call_inline; eauto|].
  destruct (is_rule line); [eauto|].
  destruct (is_bullet line); [call_inline; eauto|].
  destruct (re_match ol_item_re line) as [m|] eqn:E.
  - destruct (re_match_group ol_item_re line m 2 E) as [g ->];
      [simpl; lia|]. cbn [bind]. call_inline; eauto.
  - destruct (String.eqb (strip line) EmptyString); [eauto|].
    call_inline; eauto.
Qed.

Lemma parse_line_total (st : state) (line : string) :
  exists st', parse_line inline st line = Ok st'.
Proof.
  unfold parse_line.
  destruct (startswith "```" line); [eauto|].
  destruct (in_code_block st); [eauto|].
  destruct (startswith "> " line).
  - call_inline; eauto.
  - apply block_line_total.
Qed.

Lemma parse_loop_total (lines : list string) :
  forall st, exists st', parse_loop inline st lines = Ok st'.
Proof.
  induction lines as [|line rest IH]; intros st; simpl.
  - eauto.
  - destruct (parse_line_total st line) as [st1 ->]. apply IH.
Qed.

Lemma parse_lines_total (lines : list string) :
  exists html, parse_lines inline lines = Ok html.
Proof.
  unfold parse_lines.
  destruct (parse_loop_total lines initial) as [st ->]. simpl; eauto.
Qed.

End Totality.

(** C3: [renderInline], [renderBody] and [parse_markdown] return for every
    input, none of the exceptions of the model being raised, and the empty
    sequence of lines and the empty text give the empty string. *)
Theorem renderBody_total :
  (forall text, exists html, renderInline text = Ok html)
  /\ (forall lines, exists html, renderBody lines = Ok html)
  /\ (forall text, exists html, parse_markdown text = Ok html)
  /\ renderBody [] = Ok EmptyString
  /\ parse_markdown EmptyString = Ok EmptyString.
Proof.
  split; [exact process_inline_total|].
  split; [exact (parse_lines_total _ process_inline_total)|].
  split; [intros text; exact (parse_lines_total _ process_inline_total _)|].
  split; reflexivity.
Qed.

(** ** Shapes of lines *)

Lemma startswith_head (a : ascii) (p line : string) :
  startswith (String a p) line = true -> exists rest, line = String a rest.
Proof.
  destruct line as [|b line]; simpl; [discriminate|].
  intros H. apply andb_prop in H as [H _].
  apply Ascii.eqb_eq in H; subst; eauto.
Qed.

Lemma is_bullet_cut (line : string) :
  is_bullet line = true ->
  exists rest, line = "- " ++ rest \/ line = "* " ++ rest.
Proof.
  unfold is_bullet. intros H. exists (slice_from 2 line).
  apply orb_prop in H as [H|H]; apply startswith_cut in H; auto.
Qed.

Lemma quote_not_fence (line : string) :
  startswith "> " line = true -> startswith "```" line = false.
Proof. intros H; apply startswith_head in H as [r ->]; reflexivity. Qed.

Lemma quote_not_bullet (line : string) :
  startswith "> " line = true -> is_bullet line = false.
Proof. intros H; apply startswith_head in H as [r ->]; reflexivity. Qed.

Lemma quote_not_ol (line : string) :
  startswith "> " line = true -> matches ol_prefix_re line = false.
Proof. intros H; apply startswith_head in H as [r ->]; reflexivity. Qed.

Lemma bullet_not_ol (line : string) :
  is_bullet line = true -> matches ol_prefix_re line = false.
Proof. intros H; apply is_bullet_cut in H as [r [-> | ->]]; reflexivity. Qed.

Lemma bullet_not_fence (line : string) :
  is_bullet line = true -> startswith "```" line = false.
Proof. intros H; apply is_bullet_cut in H as [r [-> | ->]]; reflexivity. Qed.

Lemma bullet_not_quote (line : string) :
  is_bullet line = true -> startswith "> " line = false.
Proof. intros H; apply is_bullet_cut in H as [r [-> | ->]]; reflexivity. Qed.

Lemma bullet_not_header (line : string) :
  is_bullet line = true ->
  startswith "#### " line = false /\ startswith "### " line = false
  /\ startswith "## " line = false /\ startswith "# " line = false.
Proof.
  intros H; apply is_bullet_cut in H as [r [-> | ->]]; repeat split.
Qed.

Lemma rstrip_cons (c : ascii) (s : string) :
  isspace c = false -> rstrip (String c s) = String c (rstrip s).
Proof. intros H; simpl. destruct (rstrip s); rewrite ?H; reflexivity. Qed.

Lemma strip_cons (c : ascii) (s : string) :
  isspace c = false -> strip (String c s) = String c (rstrip s).
Proof. intros H; unfold strip; simpl. rewrite H. now apply rstrip_cons. Qed.

Lemma bullet_not_rule (line : string) :
  is_bullet line = true -> is_rule line = false.
Proof.
  intros H; apply is_bullet_cut in H as [r [-> | ->]]; unfold is_rule;
    simpl append; rewrite strip_cons by reflexivity; simpl rstrip;
    destruct (rstrip r); reflexivity.
Qed.

(** ** One line of the block parser *)

Ltac reduce_state H :=
  cbn [html_lines in_code_block in_ul in_ol in_blockquote blockquote_lines
       emit set_in_code_block set_in_ul set_in_ol reset_blockquote add_quote
       andb negb orb bind] in H.

Ltac unfold_step H :=
  unfold parse_line, block_line, close_lists in H;
  reduce_state H.

Ltac crack H :=
  repeat (match type of H with
          | context [if ?b then _ else _] => destruct b eqn:?
          | context [match ?x with Some _ => _ | None => _ end] =>
              destruct x eqn:?
          | context [bind ?r _] => destruct r eqn:?
          end; reduce_state H);
  try discriminate H.

Lemma parse_line_modes (inline : string -> result string) (st st' : state)
  (line : string) :
  exclusive st = true ->
  parse_line inline st line = Ok st' ->
  exclusive st' = true
  /\ (mode_of st <> Normal -> mode_of st' <> Normal ->
      mode_of st' <> mode_of st ->
      exists rest,
        html_lines st'
        = (html_lines st ++ closing st :: opening (mode_of st') ++ rest)%list).
Proof.
  intros Hex H.
  pose proof (quote_not_bullet line) as QB.
  pose proof (quote_not_ol line) as QO.
  pose proof (bullet_not_ol line) as BO.
  destruct st as [h c u o b bl]. unfold_step H.
  unfold mode_of, closing.
  destruct (startswith "```" line);
    [destruct c; inversion H; subst; (split; [exact Hex|]); cbn; congruence|].
  destruct c;
    [inversion H; subst; (split; [exact Hex|]); cbn; congruence|].
  destruct (startswith "> " line); destruct (is_bullet line);
    try discriminate (QB eq_refl);
    destruct (matches ol_prefix_re line);
    try discriminate (QO eq_refl); try discriminate (BO eq_refl);
    clear QB QO BO;
    destruct u, o, b; try discriminate Hex; reduce_state H;
    crack H; inversion H; subst; clear H;
    (split; [reflexivity|]);
    cbn; intros N1 N2 N3; try congruence;
    rewrite <- ?app_assoc; cbn; eexists; reflexivity.
Qed.

Lemma parse_line_fence (inline : string -> result string) (st : state)
  (line : string) :
  startswith "```" line = true ->
  parse_line inline st line
  = Ok (set_in_code_block (negb (in_code_block st))
          (emit (if in_code_block st then "</code></pre>" else "<pre><code>")
             st)).
Proof.
  unfold parse_line; intros ->. destruct (in_code_block st); reflexivity.
Qed.

Lemma parse_line_in_code (inline : string -> result string) (st : state)
  (line : string) :
  in_code_block st = true -> startswith "```" line = false ->
  parse_line inline st line = Ok (emit (escape_html line) st).
Proof. unfold parse_line; intros -> ->; reflexivity. Qed.

Lemma parse_line_keeps_fence (inline : string -> result string)
  (st st' : state) (line : string) :
  startswith "```" line = false ->
  parse_line inline st line = Ok st' ->
  in_code_block st' = in_code_block st.
Proof.
  intros Hf H. destruct st as [h c u o b bl]. unfold_step H.
  rewrite Hf in H. destruct c; [inversion H; reflexivity|].
  destruct u, o, b; reduce_state H; crack H; inversion H; reflexivity.
Qed.

(** C2 as stated fails: a line that only starts with the marker toggles. *)
Lemma fence_with_language_toggles :
  ~ (toggles_fence initial "```python" <-> "```python" = "```").
Proof.
  intros [T _]. assert (E : "```python" = "```"); [|discriminate E].
  apply T. eexists; split; reflexivity.
Qed.

(** C2, amended: a line toggles the code-fence mode if and only if it
    starts with the triple-backtick marker; such a line appends the opening
    or the closing code element and nothing else, changes no other part of
    the state, and is not passed to the inline transformer, whatever that
    transformer is (one that always raises included). *)
Theorem fence_toggle (st : state) (line : string) :
  (toggles_fence st line <-> startswith "```" line = true)
  /\ (startswith "```" line = true ->
      forall inline : string -> result string,
        parse_line inline st line
        = Ok (State
                (html_lines st
                 ++ [if in_code_block st then "</code></pre>"
                     else "<pre><code>"])%list
                (negb (in_code_block st)) (in_ul st) (in_ol st)
                (in_blockquote st) (blockquote_lines st))).
Proof.
  split; [split|].
  - intros (st' & H & T).
    destruct (startswith "```" line) eqn:Hf; [reflexivity|].
    apply (parse_line_keeps_fence _ _ _ _ Hf) in H.
    rewrite H in T. destruct (in_code_block st); discriminate.
  - intros Hf. eexists; split; [apply (parse_line_fence _ _ _ Hf)|reflexivity].
  - intros Hf inline. apply (parse_line_fence _ _ _ Hf).
Qed.

Lemma fence_toggle_witness :
  toggles_fence initial "```python"
  /\ parse_line (fun _ => Raise AttributeError) initial "```python"
     = Ok (State ["<pre><code>"] true false false false []).
Proof.
  destruct (fence_toggle initial "```python") as [[_ T] F].
  split; [apply T; reflexivity|].
  rewrite (F eq_refl). reflexivity.
Defined.

(** ** Escaping *)

Lemma expand_chars_app (f : ascii -> string) (a b : string) :
  expand_chars f (a ++ b) = expand_chars f a ++ expand_chars f b.
Proof.
  induction a as [|c a IH]; simpl; [reflexivity|].
  now rewrite IH, append_assoc.
Qed.

Lemma replace_char (c : ascii) (new s : string) :
  replace (String c EmptyString) new s
  = expand_chars (fun d => if Ascii.eqb c d then new else String d EmptyString)
      s.
Proof.
  unfold replace. induction s as [|d s IH]; [reflexivity|].
  cbn [replace_from startswith expand_chars String.length Nat.sub].
  rewrite andb_true_r, IH. destruct (Ascii.eqb c d); reflexivity.
Qed.

Lemma escape_html_chars (text : string) :
  escape_html text = expand_chars escape_char text.
Proof.
  unfold escape_html. rewrite !replace_char.
  induction text as [|c text IH]; [reflexivity|].
  cbn [expand_chars]. rewrite !expand_chars_app, IH. f_equal.
  unfold escape_char. rewrite (Ascii.eqb_sym c "&").
  destruct (Ascii.eqb "&" c); [reflexivity|].
  cbn [expand_chars]. rewrite (Ascii.eqb_sym c "<").
  destruct (Ascii.eqb "<" c); [reflexivity|].
  cbn [expand_chars append]. rewrite (Ascii.eqb_sym c ">").
  destruct (Ascii.eqb ">" c); reflexivity.
Qed.

Lemma code_run (inline : string -> result string) (lines : list string) :
  forall st,
    in_code_block st = true ->
    Forall (fun l => startswith "```" l = false) lines ->
    parse_loop inline st lines
    = Ok (State (html_lines st ++ map escape_html lines)%list true (in_ul st)
            (in_ol st) (in_blockquote st) (blockquote_lines st)).
Proof.
  induction lines as [|l lines IH]; intros st Hc Hf; cbn [parse_loop map].
  - rewrite app_nil_r, <- Hc. now destruct st.
  - inversion Hf; subst.
    rewrite (parse_line_in_code _ _ _ Hc H1). cbn [bind].
    rewrite IH by assumption. cbn. now rewrite <- app_assoc.
Qed.

(** C5: a line read inside a code fence that is not a fence line is
    appended HTML-escaped and nothing else changes, and so is every line
    of a run of such lines, in order; the three replacements, ampersand
    first, escape each character of the line exactly once, so that
    [escape "&"] is [&amp;] and [escape "&amp;"] is [&amp;amp;]. *)
Theorem code_line_escaped :
  (forall (inline : string -> result string) (st : state)
          (lines : list string),
      in_code_block st = true ->
      Forall (fun l => startswith "```" l = false) lines ->
      parse_loop inline st lines
      = Ok (State (html_lines st ++ map escape_html lines)%list true (in_ul st)
              (in_ol st) (in_blockquote st) (blockquote_lines st)))
  /\ (forall line, escape_html line = expand_chars escape_char line)
  /\ escape_html "&" = "&amp;"
  /\ escape_html "&amp;" = "&amp;amp;".
Proof.
  split; [|split; [exact escape_html_chars|split; reflexivity]].
  intros inline st lines Hc Hf. now apply code_run.
Qed.

Lemma code_line_escaped_witness :
  parse_loop process_inline (State ["<pre><code>"] true false false false [])
    ["<b> & **c**"; "> - # x"]
  = Ok (State ["<pre><code>"; "&lt;b&gt; &amp; **c**"; "&gt; - # x"] true
          false false false []).
Proof.
  destruct code_line_escaped as [H _].
  apply (H process_inline (State ["<pre><code>"] true false false false [])
           ["<b> & **c**"; "> - # x"]).
  - reflexivity.
  - repeat constructor.
Defined.

(** ** Lists and blockquotes are never open together *)

Lemma parse_loop_exclusive (inline : string -> result string)
  (lines : list string) :
  forall st st',
    exclusive st = true -> parse_loop inline st lines = Ok st' ->
    exclusive st' = true.
Proof.
  induction lines as [|line rest IH]; intros st st' Hex H; simpl in H.
  - inversion H; subst; exact Hex.
  - destruct (parse_line inline st line) as [st1|] eqn:E; [|discriminate].
    apply (IH st1); [|exact H].
    now destruct (parse_line_modes _ _ _ _ Hex E).
Qed.

(** C4: whatever lines of a document have been read and whatever the next
    line is, at most one of the bullet-list, numbered-list and blockquote
    modes is set before and after that line; and when the line takes the
    parser from one of these modes into another, the first thing it appends
    is the closing tag of the list, or the flushed blockquote, it leaves,
    followed by the opening tag of the list it enters (a blockquote has
    none, being buffered). *)
Theorem modes_exclusive (read : list string) (line : string) :
  exists st st',
    parse_loop process_inline initial read = Ok st
    /\ parse_line process_inline st line = Ok st'
    /\ exclusive st = true
    /\ exclusive st' = true
    /\ (mode_of st <> Normal -> mode_of st' <> Normal ->
        mode_of st' <> mode_of st ->
        exists rest,
          html_lines st'
          = (html_lines st ++ closing st :: opening (mode_of st') ++ rest)%list).
Proof.
  destruct (parse_loop_total _ process_inline_total read initial) as [st H].
  destruct (parse_line_total _ process_inline_total st line) as [st' H'].
  exists st, st'.
  assert (Hex : exclusive st = true)
    by (apply (parse_loop_exclusive process_inline read initial st);
        [reflexivity|exact H]).
  destruct (parse_line_modes _ _ _ _ Hex H') as [Hex' T].
  repeat split; assumption.
Qed.

Lemma modes_exclusive_witness :
  exists st st',
    parse_loop process_inline initial ["intro"; "- a"] = Ok st
    /\ parse_line process_inline st "1. b" = Ok st'
    /\ mode_of st = InBulletList /\ mode_of st' = InNumberedList
    /\ exists rest,
         html_lines st' = (html_lines st ++ "</ul>" :: "<ol>" :: rest)%list.
Proof.
  destruct (modes_exclusive ["intro"; "- a"] "1. b")
    as (st & st' & H & H' & _ & _ & T).
  exists st, st'.
  assert (E : st = State ["<p>intro</p>"; "<ul>"; "<li>a</li>"] false true
                      false false [])
    by (vm_compute in H; congruence).
  subst st.
  assert (E : mode_of st' = InNumberedList)
    by (vm_compute in H'; inversion H'; reflexivity).
  repeat split; try assumption.
  rewrite E in T. apply T; discriminate.
Defined.

(** ** Runs of blockquote lines and of bullet items *)

Lemma inlined_cons (k : nat) (l : string) (ls frags : list string) :
  inlined k (l :: ls) frags ->
  exists r frags',
    frags = r :: frags' /\ process_inline (slice_from k l) = Ok r
    /\ inlined k ls frags'.
Proof.
  unfold inlined; destruct frags as [|r frags']; simpl; intros H;
    inversion H. eauto.
Qed.

Lemma inlined_nil (k : nat) (frags : list string) :
  inlined k [] frags -> frags = [].
Proof. unfold inlined; destruct frags; simpl; [reflexivity|discriminate]. Qed.

Ltac reduce_goal :=
  cbn [in_code_block in_ul in_ol in_blockquote andb negb orb bind];
  cbv beta iota zeta delta
    [html_lines in_code_block in_ul in_ol in_blockquote blockquote_lines
     emit set_in_code_block set_in_ul set_in_ol reset_blockquote add_quote
     bind];
  cbn [app].

Lemma parse_line_quote (inline : string -> result string) (h bl : list string)
  (u o b : bool) (line r : string) :
  startswith "> " line = true -> inline (slice_from 2 line) = Ok r ->
  parse_line inline (State h false u o b bl) line
  = Ok (State (h ++ closed_lists u o) false false false true
          ((if b then bl else []) ++ [r])%list).
Proof.
  intros HQ Hr. unfold parse_line, close_lists, closed_lists.
  rewrite (quote_not_fence _ HQ), (quote_not_bullet _ HQ),
    (quote_not_ol _ HQ), HQ.
  destruct u, o, b; reduce_goal; rewrite Hr; reduce_goal;
    rewrite <- ?app_assoc, ?app_nil_r; reflexivity.
Qed.

Lemma quote_run (qs : list string) :
  forall (h bl frags : list string),
    Forall (fun l => startswith "> " l = true) qs -> inlined 2 qs frags ->
    parse_loop process_inline (State h false false false true bl) qs
    = Ok (State h false false false true (bl ++ frags)%list).
Proof.
  induction qs as [|l qs IH]; intros h bl frags HQ Hf.
  - apply inlined_nil in Hf; subst. now rewrite app_nil_r.
  - apply inlined_cons in Hf as (r & frags' & -> & Hr & Hf).
    inversion HQ; subst. cbn [parse_loop].
    rewrite (parse_line_quote _ _ _ _ _ _ _ _ H1 Hr). cbn [bind].
    unfold closed_lists. rewrite app_nil_r.
    rewrite (IH _ _ _ H2 Hf), <- app_assoc. reflexivity.
Qed.

Lemma parse_line_after_quote (inline : string -> result string)
  (h bl : list string) (x : string) :
  startswith "> " x = false -> startswith "```" x = false ->
  parse_line inline (State h false false false true bl) x
  = parse_line inline
      (State (h ++ [blockquote_html bl]) false false false false []) x.
Proof.
  intros HQ HF. unfold parse_line, close_lists. rewrite HF, HQ. reflexivity.
Qed.

Lemma parse_line_bullet (inline : string -> result string)
  (h bl : list string) (u o b : bool) (line r : string) :
  is_bullet line = true -> inline (slice_from 2 line) = Ok r ->
  parse_line inline (State h false u o b bl) line
  = Ok (State
          (h ++ closed_for_list o b bl ++ (if u then [] else ["<ul>"])
             ++ [wrap "li" r])%list
          false true false false (if b then [] else bl)).
Proof.
  intros HB Hr. unfold parse_line, close_lists, block_line, closed_for_list.
  destruct (bullet_not_header _ HB) as (H4 & H3 & H2 & H1).
  rewrite (bullet_not_fence _ HB), (bullet_not_ol _ HB),
    (bullet_not_quote _ HB), H4, H3, H2, H1, (bullet_not_rule _ HB), HB.
  destruct u, o, b; reduce_goal; rewrite Hr; reduce_goal;
    rewrite <- ?app_assoc; reflexivity.
Qed.

Lemma bullet_run (bs : list string) :
  forall (h bl frags : list string),
    Forall (fun l => is_bullet l = true) bs -> inlined 2 bs frags ->
    parse_loop process_inline (State h false true false false bl) bs
    = Ok (State (h ++ map (wrap "li") frags)%list false true false false bl).
Proof.
  induction bs as [|l bs IH]; intros h bl frags HB Hf.
  - apply inlined_nil in Hf; subst. simpl. now rewrite app_nil_r.
  - apply inlined_cons in Hf as (r & frags' & -> & Hr & Hf).
    inversion HB; subst. cbn [parse_loop].
    rewrite (parse_line_bullet _ _ _ _ _ _ _ _ H1 Hr). cbn [bind].
    unfold closed_for_list. cbn [app].
    rewrite (IH _ _ _ H2 Hf), <- app_assoc. reflexivity.
Qed.

Lemma parse_line_after_list (inline : string -> result string)
  (h bl : list string) (x : string) :
  is_bullet x = false -> startswith "```" x = false ->
  parse_line inline (State h false true false false bl) x
  = parse_line inline (State (h ++ ["</ul>"]) false false false false bl) x.
Proof.
  intros HB HF. unfold parse_line, close_lists. rewrite HF.
  cbn [in_code_block in_ul in_ol andb]. rewrite HB. reflexivity.
Qed.

Lemma parse_loop_app (inline : string -> result string) (xs ys : list string) :
  forall st st',
    parse_loop inline st xs = Ok st' ->
    parse_loop inline st (xs ++ ys) = parse_loop inline st' ys.
Proof.
  induction xs as [|x xs IH]; intros st st' H; simpl in *.
  - now inversion H.
  - destruct (parse_line inline st x) as [st1|]; [|discriminate].
    cbn [bind] in *. now apply IH.
Qed.

(** C6 as stated fails: a fence line is not prefixed by [> ], yet it leaves
    the blockquote buffered, which is flushed after the fence. *)
Lemma blockquote_not_flushed_by_fence :
  startswith "> " "```" = false
  /\ (exists st,
         parse_loop process_inline initial ["> a"; "```"] = Ok st
         /\ in_blockquote st = true /\ blockquote_lines st = ["a"]
         /\ html_lines st = ["<pre><code>"])
  /\ renderBody ["> a"; "```"]
     = Ok (join nl ["<pre><code>"; "<blockquote>a</blockquote>"]).
Proof.
  split; [reflexivity|]. split; [|reflexivity].
  eexists; split; [reflexivity|]. repeat split.
Qed.

(** C6, amended: outside a code fence, consecutive lines prefixed by [> ],
    the first of them read when no blockquote is open, append nothing but
    the closing tag of a list that was open, and are buffered, cut and
    inline-processed, in order; at a following line that is neither
    prefixed by [> ] nor a fence line the buffer is flushed as one
    blockquote element, its fragments joined by a single space, before that
    line is processed in the state where nothing is open; at the end of
    the document [close_open_elements] flushes it the same way.  So
    [renderBody ["> line1"; "> line2"; "x"]] is one blockquote holding
    [line1 line2], followed by [<p>x</p>]. *)
Theorem blockquote_run_flushed :
  (forall (h bl : list string) (u o : bool) (q : string)
          (qs frags : list string),
      Forall (fun l => startswith "> " l = true) (q :: qs) ->
      inlined 2 (q :: qs) frags ->
      let before := State h false u o false bl in
      let closed := (h ++ closed_lists u o)%list in
      let flushed :=
        (closed
         ++ [("<blockquote>" ++ join " " frags ++ "</blockquote>")%string])%list
      in
      parse_loop process_inline before (q :: qs)
      = Ok (State closed false false false true frags)
      /\ (forall x,
             startswith "> " x = false -> startswith "```" x = false ->
             parse_loop process_inline before (q :: qs ++ [x])
             = parse_line process_inline
                 (State flushed false false false false []) x)
      /\ close_open_elements (State closed false false false true frags)
         = State flushed false false false true frags)
  /\ renderBody ["> line1"; "> line2"; "x"]
     = Ok (join nl ["<blockquote>line1 line2</blockquote>"; "<p>x</p>"]).
Proof.
  split; [|reflexivity].
  intros h bl u o q qs frags HQ Hf before closed flushed.
  assert (Run : parse_loop process_inline before (q :: qs)
                = Ok (State closed false false false true frags)).
  { apply inlined_cons in Hf as (r & frags' & -> & Hr & Hf).
    inversion HQ; subst. cbn [parse_loop]. subst before.
    rewrite (parse_line_quote _ _ _ _ _ _ _ _ H1 Hr). cbn [bind].
    now rewrite (quote_run _ _ _ _ H2 Hf). }
  split; [exact Run|]. split; [|reflexivity].
  intros x Hx Hfence.
  change (q :: qs ++ [x])%list with ((q :: qs) ++ [x])%list.
  rewrite (parse_loop_app _ _ _ _ _ Run). cbn [parse_loop].
  rewrite (parse_line_after_quote _ _ _ _ Hx Hfence).
  fold (blockquote_html frags).
  destruct (parse_line _ _ x); reflexivity.
Qed.

Lemma blockquote_run_flushed_witness :
  parse_loop process_inline (State ["<ul>"; "<li>a</li>"] false true false false [])
    ["> *one*"; "> two"; "# T"]
  = Ok (State ["<ul>"; "<li>a</li>"; "</ul>";
               "<blockquote><em>one</em> two</blockquote>"; "<h1>T</h1>"]
          false false false false []).
Proof.
  destruct blockquote_run_flushed as [H _].
  destruct (H ["<ul>"; "<li>a</li>"] [] true false "> *one*" ["> two"]
              ["<em>one</em>"; "two"])
    as (_ & F & _).
  - repeat constructor.
  - reflexivity.
  - exact (eq_trans (F "# T" eq_refl eq_refl) eq_refl).
Defined.

(** C7 as stated fails: a fence line is not a list item, yet the list stays
    open across it and is closed after it. *)
Lemma list_not_closed_before_fence :
  is_bullet "```" = false
  /\ (exists st,
         parse_loop process_inline initial ["- a"; "```"] = Ok st
         /\ in_ul st = true
         /\ html_lines st = ["<ul>"; "<li>a</li>"; "<pre><code>"])
  /\ renderBody ["- a"; "```"]
     = Ok (join nl ["<ul>"; "<li>a</li>"; "<pre><code>"; "</ul>"]).
Proof.
  split; [reflexivity|]. split; [|reflexivity].
  eexists; split; [reflexivity|]. repeat split.
Qed.

(** C7, amended: outside a code fence, consecutive bullet items, the first
    of them read when no bullet list is open, open one list, after the
    closing of a numbered list or blockquote that was open, and append one
    item each; at a following line that is neither a bullet item nor a
    fence line the list is closed before that line is processed in the
    state where nothing is open; at the end of the document
    [close_open_elements] closes it.  So
    [renderBody ["- a"; "- b"; "x"]] is one list of two items closed before
    [<p>x</p>], and [renderBody ["- only item"]] ends with the closing
    tag. *)
Theorem bullet_run_closed :
  (forall (h bl : list string) (o bq : bool) (b : string)
          (bs frags : list string),
      Forall (fun l => is_bullet l = true) (b :: bs) ->
      inlined 2 (b :: bs) frags ->
      let before := State h false false o bq bl in
      let bl' := if bq then [] else bl in
      let opened :=
        (h ++ closed_for_list o bq bl ++ "<ul>" :: map (wrap "li") frags)%list
      in
      parse_loop process_inline before (b :: bs)
      = Ok (State opened false true false false bl')
      /\ (forall x,
             is_bullet x = false -> startswith "```" x = false ->
             parse_loop process_inline before (b :: bs ++ [x])
             = parse_line process_inline
                 (State (opened ++ ["</ul>"]) false false false false bl') x)
      /\ close_open_elements (State opened false true false false bl')
         = State (opened ++ ["</ul>"]) false true false false bl')
  /\ renderBody ["- a"; "- b"; "x"]
     = Ok (join nl ["<ul>"; "<li>a</li>"; "<li>b</li>"; "</ul>"; "<p>x</p>"])
  /\ renderBody ["- only item"]
     = Ok (join nl ["<ul>"; "<li>only item</li>"; "</ul>"]).
Proof.
  split; [|split; reflexivity].
  intros h bl o bq b bs frags HB Hf before bl' opened.
  assert (Run : parse_loop process_inline before (b :: bs)
                = Ok (State opened false true false false bl')).
  { apply inlined_cons in Hf as (r & frags' & -> & Hr & Hf).
    inversion HB; subst. cbn [parse_loop]. subst before.
    rewrite (parse_line_bullet _ _ _ _ _ _ _ _ H1 Hr). cbn [bind].
    rewrite (bullet_run _ _ _ _ H2 Hf). subst opened bl'.
    rewrite <- !app_assoc. reflexivity. }
  split; [exact Run|]. split; [|reflexivity].
  intros x Hx Hfence.
  change (b :: bs ++ [x])%list with ((b :: bs) ++ [x])%list.
  rewrite (parse_loop_app _ _ _ _ _ Run). cbn [parse_loop].
  rewrite (parse_line_after_list _ _ _ _ Hx Hfence).
  destruct (parse_line _ _ x); reflexivity.
Qed.

Lemma bullet_run_closed_witness :
  parse_loop process_inline (State [] false false false true ["said"])
    ["- a"; "* **b**"; "> q"]
  = Ok (State ["<blockquote>said</blockquote>"; "<ul>"; "<li>a</li>";
               "<li><strong>b</strong></li>"; "</ul>"]
          false false false true ["q"]).
Proof.
  destruct bullet_run_closed as [H _].
  destruct (H [] ["said"] false true "- a" ["* **b**"]
              ["a"; "<strong>b</strong>"])
    as (_ & F & _).
  - repeat constructor.
  - reflexivity.
  - exact (eq_trans (F "> q" eq_refl eq_refl) eq_refl).
Defined.

(** ** Five hashes make no header *)

Lemma five_hashes_block (inline : string -> result string) (st : state)
  (rest r : string) :
  inline ("#####" ++ rest) = Ok r ->
  block_line inline st ("#####" ++ rest) = Ok (emit (wrap "p" r) st).
Proof.
  intros Hr.
  assert (HR : is_rule ("#####" ++ rest) = false).
  { unfold is_rule. simpl append. rewrite strip_cons by reflexivity.
    reflexivity. }
  assert (HE : String.eqb (strip ("#####" ++ rest)) EmptyString = false).
  { simpl append. rewrite strip_cons by reflexivity. reflexivity. }
  assert (HM : re_match ol_item_re ("#####" ++ rest) = None) by reflexivity.
  unfold block_line.
  change (startswith "#### " ("#####" ++ rest)) with false.
  change (startswith "### " ("#####" ++ rest)) with false.
  change (startswith "## " ("#####" ++ rest)) with false.
  change (startswith "# " ("#####" ++ rest)) with false.
  change (is_bullet ("#####" ++ rest)) with false.
  cbv iota. rewrite HR, HM, HE, Hr. reflexivity.
Qed.

Lemma five_hashes_line (inline : string -> result string)
  (h bl : list string) (rest r : string) :
  inline ("#####" ++ rest) = Ok r ->
  parse_line inline (State h false false false false bl) ("#####" ++ rest)
  = Ok (State (h ++ [wrap "p" r]) false false false false bl).
Proof.
  intros Hr. unfold parse_line, close_lists.
  change (startswith "```" ("#####" ++ rest)) with false.
  change (startswith "> " ("#####" ++ rest)) with false.
  cbn [in_code_block in_ul in_ol in_blockquote andb].
  now rewrite (five_hashes_block _ _ _ _ Hr).
Qed.

(** C10: a line that begins with five hashes passes none of the four
    header tests, and the part of the loop that begins with them appends
    it, in any state, as a paragraph of its inline-processed text, the
    hashes included; read where nothing is open the line appends that
    paragraph alone; when what follows the hashes is unstyled the paragraph
    holds the line as it is, and [renderBody ["##### T"]] is
    [<p>##### T</p>]. *)
Theorem five_hashes_paragraph :
  (forall rest : string,
      let line := "#####" ++ rest in
      startswith "#### " line = false /\ startswith "### " line = false
      /\ startswith "## " line = false /\ startswith "# " line = false
      /\ (forall (st : state) (r : string),
             process_inline line = Ok r ->
             block_line process_inline st line
             = Ok (State (html_lines st ++ [("<p>" ++ r ++ "</p>")%string])%list
                     (in_code_block st) (in_ul st) (in_ol st)
                     (in_blockquote st) (blockquote_lines st)))
      /\ (forall (h bl : list string) (r : string),
             process_inline line = Ok r ->
             parse_line process_inline (State h false false false false bl)
               line
             = Ok (State (h ++ [("<p>" ++ r ++ "</p>")%string])%list false
                     false false false bl))
      /\ (unstyled rest = true ->
          renderBody [line] = Ok ("<p>#####" ++ rest ++ "</p>")))
  /\ renderBody ["##### T"] = Ok "<p>##### T</p>".
Proof.
  split; [|reflexivity].
  intros rest line. repeat split.
  - intros st r Hr. apply (five_hashes_block _ st rest r Hr).
  - intros h bl r Hr. apply (five_hashes_line _ h bl rest r Hr).
  - intros Hu. subst line. unfold renderBody, parse_lines, initial.
    cbn [parse_loop].
    rewrite (five_hashes_line process_inline [] [] rest ("#####" ++ rest)).
    + reflexivity.
    + apply process_inline_unstyled. exact Hu.
Qed.

Lemma five_hashes_paragraph_witness :
  renderBody ["###### too deep"] = Ok "<p>###### too deep</p>"
  /\ parse_line process_inline initial "#####*x*"
     = Ok (State ["<p>#####<em>x</em></p>"] false false false false []).
Proof.
  split.
  - destruct five_hashes_paragraph as [H _].
    destruct (H "# too deep") as (_ & _ & _ & _ & _ & _ & U).
    exact (U eq_refl).
  - destruct five_hashes_paragraph as [H _].
    destruct (H "*x*") as (_ & _ & _ & _ & _ & P & _).
    exact (P [] [] "#####<em>x</em>" eq_refl).
Defined.

(** ** Images and links *)

Lemma length_app (a b : string) :
  String.length (a ++ b) = String.length a + String.length b.
Proof. induction a; simpl; auto. Qed.

Lemma contains_start (w s : string) :
  contains w s = false -> startswith w s = false.
Proof.
  intros H. destruct (startswith w s) eqn:E; [|reflexivity].
  apply startswith_contains in E. congruence.
Qed.

Lemma contains_char_cons (c d : ascii) (s : string) :
  contains (String c EmptyString) (String d s)
  = Ascii.eqb c d || contains (String c EmptyString) s.
Proof. simpl. now rewrite andb_true_r. Qed.

Lemma contains_char_app (c : ascii) (a b : string) :
  contains (String c EmptyString) (a ++ b)
  = contains (String c EmptyString) a || contains (String c EmptyString) b.
Proof.
  induction a as [|d a IH]; [reflexivity|].
  simpl append. now rewrite !contains_char_cons, IH, orb_assoc.
Qed.

Lemma contains_slice_from (w : string) (k : nat) :
  forall s, contains w s = false -> contains w (slice_from k s) = false.
Proof.
  induction k as [|k IH]; intros s H; [exact H|].
  destruct s as [|c s]; [exact H|].
  apply contains_false_inv in H as [_ H]. now apply IH.
Qed.

Lemma span_stop (c : ascii) (a r : string) :
  contains (String c EmptyString) a = false ->
  span (NoneOf (String c EmptyString)) (a ++ String c r) = String.length a.
Proof.
  induction a as [|d a IH]; intros H.
  - simpl. now rewrite Ascii.eqb_refl.
  - rewrite contains_char_cons in H. apply orb_false_elim in H as [Hd Ha].
    simpl. rewrite (Ascii.eqb_sym d c), Hd. simpl. now rewrite IH.
Qed.

Lemma match_at_lit (c : ascii) (p : pattern) (prev : option ascii)
  (s : string) :
  match_at (Lit c :: p) prev (String c s)
  = advance 1 None (match_at p (Some c) s).
Proof. simpl. now rewrite Ascii.eqb_refl. Qed.

Lemma match_at_rep_stop (c : ascii) (least : nat) (p : pattern)
  (prev : option ascii) (a r : string) (gs : list string) (m : nat) :
  contains (String c EmptyString) a = false ->
  least <= String.length a ->
  match_at p (last_of prev a) (String c r) = Some (gs, m) ->
  match_at (Rep true (NoneOf (String c EmptyString)) least :: p) prev
    (a ++ String c r)
  = Some (a :: gs, String.length a + m).
Proof.
  intros Ha Hl Hm. cbn [match_at]. rewrite (span_stop _ _ _ Ha).
  apply descend_first; [exact Hl|].
  now rewrite slice_to_app, slice_from_app, Hm.
Qed.

(** The image rule matches the whole of an image. *)
Lemma image_match (alt url : string) (prev : option ascii) :
  contains "]" alt = false -> contains ")" url = false ->
  url <> EmptyString ->
  match_at image_re prev (image_md alt url)
  = Some ([alt; url], String.length (image_md alt url)).
Proof.
  intros Ha Hu Hne. unfold image_re, image_md, cap_star, cap_plus.
  simpl append. rewrite !match_at_lit.
  rewrite (match_at_rep_stop "]" 0 _ _ alt _ [url]
             (1 + (1 + (String.length url + 1)))).
  - simpl. rewrite ?length_app. simpl. rewrite ?length_app. reflexivity.
  - exact Ha.
  - lia.
  - rewrite !match_at_lit.
    rewrite (match_at_rep_stop ")" 1 _ _ url _ [] 1); [reflexivity|exact Hu| |].
    + destruct url; [congruence|simpl; lia].
    + rewrite match_at_lit. reflexivity.
Qed.

Lemma sub_from_skip_all (p : pattern) (t : template) :
  (forall prev, match_at p prev EmptyString = None) ->
  forall s prev, sub_from p t (String.length s) prev s = EmptyString.
Proof.
  intros Hp; induction s as [|c s IH]; intros prev; simpl.
  - now rewrite Hp.
  - apply IH.
Qed.

Lemma sub_image (alt url : string) :
  contains "]" alt = false -> contains ")" url = false ->
  url <> EmptyString ->
  sub image_re image_to (image_md alt url) = Ok (img_html url alt).
Proof.
  intros Ha Hu Hne. unfold sub.
  change (template_ok image_re image_to) with true. cbv iota.
  pose proof (image_match alt url None Ha Hu Hne) as M.
  unfold image_md in *. simpl append in *. cbn [sub_from String.length] in *.
  rewrite M, sub_from_skip_all by reflexivity.
  unfold img_html, image_to. cbn [expand nth Nat.sub].
  now rewrite !append_assoc, !append_nil_r.
Qed.

Lemma sub_from_lit_prefix (c : ascii) (p : pattern) (t : template) (b : string) :
  forall a prev,
    contains (String c EmptyString) a = false ->
    sub_from (Lit c :: p) t 0 prev (a ++ b)
    = a ++ sub_from (Lit c :: p) t 0 (last_of prev a) b.
Proof.
  induction a as [|d a IH]; intros prev H; [reflexivity|].
  rewrite contains_char_cons in H. apply orb_false_elim in H as [Hd Ha].
  simpl append. cbn [sub_from match_at last_of]. rewrite Hd.
  f_equal. now apply IH.
Qed.

(** The link rule needs a closing bracket after its opening one. *)
Lemma link_needs_close (s : string) (prev : option ascii) :
  contains "]" s = false -> match_at link_re prev s = None.
Proof.
  intros H. destruct s as [|d s]; [reflexivity|].
  apply contains_false_inv in H as [_ H].
  unfold link_re, cap_plus.
  change (match_at (Lit "[" :: ?p) prev (String d s))
    with (if Ascii.eqb "[" d then advance 1 None (match_at p (Some d) s)
          else None).
  destruct (Ascii.eqb "[" d); [|reflexivity].
  change (match_at (Rep true ?k ?least :: ?p) ?pr s)
    with (descend least
            (fun n =>
               advance n (Some (slice_to n s))
                 (match_at p (last_of pr (slice_to n s)) (slice_from n s)))
            (span k s)).
  rewrite descend_none; [reflexivity|].
  intros k. rewrite (opens_with_lit "]"); [reflexivity|].
  apply contains_start. now apply contains_slice_from.
Qed.

Lemma sub_link_no_close (s : string) :
  forall prev,
    contains "]" s = false -> sub_from link_re link_to 0 prev s = s.
Proof.
  induction s as [|c s IH]; intros prev H.
  - reflexivity.
  - cbn [sub_from]. rewrite (link_needs_close _ _ H).
    apply contains_false_inv in H as [_ H]. f_equal. now apply IH.
Qed.

Lemma sub_link_img (alt url : string) :
  contains "]" alt = false -> contains "[" url = false ->
  sub link_re link_to (img_html url alt) = Ok (img_html url alt).
Proof.
  intros Ha Hu. unfold sub.
  change (template_ok link_re link_to) with true. cbv iota. f_equal.
  unfold img_html.
  replace ("<img src=" ++ q ++ url ++ q ++ " alt=" ++ q ++ alt ++ q ++ ">")
    with (("<img src=" ++ q ++ url ++ q ++ " alt=" ++ q) ++ alt ++ q ++ ">")
    by (now rewrite !append_assoc).
  unfold link_re at 1. rewrite sub_from_lit_prefix.
  - f_equal. apply sub_link_no_close.
    rewrite contains_char_app, Ha. reflexivity.
  - rewrite !contains_char_app, Hu. reflexivity.
Qed.

(** C8 as stated fails: an image inside the URL of another is left to the
    link rule, which matches its bracketed part and leaves the exclamation
    mark behind. *)
Lemma nested_image_matched_as_link :
  exists html,
    renderInline "![a](![b](c))" = Ok html
    /\ html = "<img src=" ++ q ++ "!<a href=" ++ q ++ "c" ++ q ++ " alt=" ++ q
              ++ "a" ++ q ++ ">" ++ q ++ ">b</a>"
    /\ contains "<a " html = true.
Proof. eexists; repeat split. Qed.

(** C8, amended: the image rule, the first of [renderInline], rewrites the
    whole of an image [![alt](url)], exclamation mark included, into one
    [img] element, and when the URL holds no opening bracket the link rule
    that follows leaves that element as it is; so
    [renderInline "![a](u.png)"] is [<img src="u.png" alt="a">], in which
    no [<a] occurs. *)
Theorem image_before_link :
  (forall alt url : string,
      contains "]" alt = false -> contains ")" url = false ->
      url <> EmptyString -> contains "[" url = false ->
      sub image_re image_to (image_md alt url) = Ok (img_html url alt)
      /\ sub link_re link_to (img_html url alt) = Ok (img_html url alt))
  /\ renderInline "![a](u.png)" = Ok (img_html "u.png" "a")
  /\ img_html "u.png" "a"
     = "<img src=" ++ q ++ "u.png" ++ q ++ " alt=" ++ q ++ "a" ++ q ++ ">"
  /\ contains "<a" (img_html "u.png" "a") = false.
Proof.
  split; [|repeat split].
  intros alt url Ha Hu Hne Hb. split.
  - now apply sub_image.
  - now apply sub_link_img.
Qed.

Lemma image_before_link_witness :
  sub image_re image_to "![a cat](cats/1.png?w=2)"
  = Ok (img_html "cats/1.png?w=2" "a cat")
  /\ sub link_re link_to (img_html "cats/1.png?w=2" "a cat")
     = Ok (img_html "cats/1.png?w=2" "a cat").
Proof.
  destruct image_before_link as [H _].
  apply (H "a cat" "cats/1.png?w=2"); try reflexivity. discriminate.
Defined.

(** * Properties beyond the claims *)

(** ** Output is only ever appended *)

Lemma parse_line_appends (inline : string -> result string) (st st' : state)
  (line : string) :
  exclusive st = true ->
  parse_line inline st line = Ok st' ->
  exists out,
    html_lines st' = (html_lines st ++ out)%list /\ List.length out <= 3.
Proof.
  intros Hex H.
  pose proof (quote_not_bullet line) as QB.
  pose proof (quote_not_ol line) as QO.
  pose proof (bullet_not_ol line) as BO.
  destruct st as [h c u o b bl]. unfold_step H.
  destruct (startswith "```" line).
  { destruct c; inversion H; subst; eexists; (split; [reflexivity|simpl; lia]). }
  destruct c.
  { inversion H; subst; eexists; (split; [reflexivity|simpl; lia]). }
  destruct (startswith "> " line); destruct (is_bullet line);
    try discriminate (QB eq_refl);
    destruct (matches ol_prefix_re line);
    try discriminate (QO eq_refl); try discriminate (BO eq_refl);
    clear QB QO BO;
    destruct u, o, b; try discriminate Hex; reduce_state H;
    crack H; inversion H; subst; clear H; reduce_goal;
    rewrite <- ?app_assoc;
    first [ eexists; split; [reflexivity|simpl; lia]
          | exists []; split; [now rewrite app_nil_r|simpl; lia] ].
Qed.

Lemma parse_loop_appends (inline : string -> result string)
  (lines : list string) :
  forall st st',
    exclusive st = true -> parse_loop inline st lines = Ok st' ->
    exists out,
      html_lines st' = (html_lines st ++ out)%list
      /\ List.length out <= 3 * List.length lines.
Proof.
  induction lines as [|line rest IH]; intros st st' Hex H; simpl in H.
  - inversion H; subst. exists []. split; [now rewrite app_nil_r|simpl; lia].
  - destruct (parse_line inline st line) as [st1|] eqn:E; [|discriminate].
    cbn [bind] in H.
    destruct (parse_line_appends _ _ _ _ Hex E) as (o1 & E1 & L1).
    destruct (parse_line_modes _ _ _ _ Hex E) as [Hex1 _].
    destruct (IH _ _ Hex1 H) as (o2 & E2 & L2).
    exists (o1 ++ o2)%list. rewrite E2, E1, app_assoc. split; [reflexivity|].
    rewrite List.length_app. simpl. lia.
Qed.

(** X1: what a document prefix has appended is never changed by the lines
    that follow: the fragments after [read ++ more] are those after [read]
    followed by at most three fragments for each line of [more]. *)
Theorem output_append_only (read more : list string) :
  exists st st' out,
    parse_loop process_inline initial read = Ok st
    /\ parse_loop process_inline initial (read ++ more) = Ok st'
    /\ html_lines st' = (html_lines st ++ out)%list
    /\ List.length out <= 3 * List.length more.
Proof.
  destruct (parse_loop_total _ process_inline_total read initial) as [st H].
  destruct (parse_loop_total _ process_inline_total more st) as [st' H'].
  assert (Hex : exclusive st = true)
    by (apply (parse_loop_exclusive process_inline read initial st);
        [reflexivity|exact H]).
  destruct (parse_loop_appends _ _ _ _ Hex H') as (out & E & L).
  exists st, st', out. repeat split; try assumption.
  now rewrite (parse_loop_app _ _ _ _ _ H).
Qed.

(** ** Fenced blocks *)

Lemma open_fence_run (inline : string -> result string) (st : state)
  (opener : string) (code : list string) :
  in_code_block st = false ->
  startswith "```" opener = true -> no_fence code ->
  parse_loop inline st (opener :: code)
  = Ok (State (html_lines st ++ "<pre><code>" :: map escape_html code)%list
          true (in_ul st) (in_ol st) (in_blockquote st)
          (blockquote_lines st)).
Proof.
  intros Hc Ho Hcode. cbn [parse_loop].
  rewrite (parse_line_fence _ _ _ Ho), Hc. cbn [bind negb].
  rewrite (code_run inline code
             (set_in_code_block true (emit "<pre><code>" st)) eq_refl Hcode).
  reduce_goal. rewrite <- ?app_assoc. reflexivity.
Qed.

(** X2: a fenced block read outside a fence appends the opening element,
    each of its lines HTML-escaped and the closing element, whatever the
    inline transformer; the list and blockquote modes and the blockquote
    buffer are the same after the block as before it, so a list or
    blockquote open before the fence is still open after it. *)
Theorem fenced_block (inline : string -> result string) (st : state)
  (opener closer : string) (code : list string) :
  in_code_block st = false ->
  startswith "```" opener = true -> startswith "```" closer = true ->
  no_fence code ->
  parse_loop inline st (opener :: code ++ [closer])
  = Ok (State
          (html_lines st
           ++ "<pre><code>" :: map escape_html code ++ ["</code></pre>"])%list
          false (in_ul st) (in_ol st) (in_blockquote st)
          (blockquote_lines st)).
Proof.
  intros Hc Ho Hcl Hcode.
  change (opener :: code ++ [closer])%list
    with ((opener :: code) ++ [closer])%list.
  rewrite (parse_loop_app inline _ [closer] _ _
             (open_fence_run inline st opener code Hc Ho Hcode)).
  cbn [parse_loop]. rewrite (parse_line_fence _ _ _ Hcl).
  reduce_goal. rewrite <- ?app_assoc. reflexivity.
Qed.

Lemma fenced_block_witness :
  parse_loop process_inline
    (State ["<ul>"; "<li>a</li>"] false true false false [])
    ["```python"; "if a < b:"; "```"]
  = Ok (State ["<ul>"; "<li>a</li>"; "<pre><code>"; "if a &lt; b:";
               "</code></pre>"] false true false false []).
Proof.
  apply (fenced_block process_inline
           (State ["<ul>"; "<li>a</li>"] false true false false [])
           "```python" "```" ["if a < b:"]); try reflexivity.
  repeat constructor.
Defined.

Lemma split_shape (sep : ascii) (s : string) :
  exists w ws, split sep s = w :: ws.
Proof.
  induction s as [|c s (w & ws & IH)]; simpl; [eauto|].
  destruct (Ascii.eqb c sep); [eauto|]. rewrite IH; eauto.
Qed.

Lemma split_first_line (a b : string) :
  contains nl a = false ->
  split newline (a ++ String newline b) = a :: split newline b.
Proof.
  induction a as [|c a IH]; intros H.
  - reflexivity.
  - unfold nl in H. rewrite contains_char_cons in H.
    apply orb_false_elim in H as [Hc Ha].
    simpl. rewrite (Ascii.eqb_sym c newline), Hc.
    now rewrite (IH Ha).
Qed.

Lemma join_prepend (sep a x : string) (xs : list string) :
  join sep ((a ++ x) :: xs) = a ++ join sep (x :: xs).
Proof. destruct xs; simpl; [reflexivity|apply append_assoc]. Qed.

Lemma join_escaped_lines (t : string) :
  join nl (map escape_html (split newline t)) = escape_html t.
Proof.
  rewrite (map_ext _ _ escape_html_chars), escape_html_chars.
  induction t as [|c t IH]; [reflexivity|].
  cbn [split expand_chars].
  destruct (split_shape newline t) as (w & ws & E). rewrite E in *.
  destruct (Ascii.eqb c newline) eqn:Hc.
  - apply Ascii.eqb_eq in Hc; subst c.
    cbn [map] in *. change (escape_char newline) with nl.
    rewrite <- IH. reflexivity.
  - cbn [map expand_chars] in *. rewrite join_prepend. now rewrite IH.
Qed.

(** X3: a fence that is never closed takes the rest of the document as
    code: each following line is appended HTML-escaped, whatever the
    inline transformer, and the cleanup at the end of the document appends
    no closing element.  On the text, [parse_markdown] of an opening fence
    line followed by [t] is the opening element, a newline and
    [escape_html t]. *)
Theorem unterminated_fence :
  (forall (inline : string -> result string) (opener : string)
          (code : list string),
      startswith "```" opener = true -> no_fence code ->
      parse_lines inline (opener :: code)
      = Ok (join nl ("<pre><code>" :: map escape_html code)))
  /\ (forall info t : string,
         contains nl info = false -> no_fence (split newline t) ->
         parse_markdown ("```" ++ info ++ nl ++ t)
         = Ok ("<pre><code>" ++ nl ++ escape_html t)).
Proof.
  assert (Lines : forall inline opener code,
             startswith "```" opener = true -> no_fence code ->
             parse_lines inline (opener :: code)
             = Ok (join nl ("<pre><code>" :: map escape_html code))).
  { intros inline opener code Ho Hcode. unfold parse_lines.
    rewrite (open_fence_run inline initial opener code eq_refl Ho Hcode).
    reflexivity. }
  split; [exact Lines|].
  intros info t Hi Ht. unfold parse_markdown.
  change ("```" ++ info ++ nl ++ t)
    with (("```" ++ info) ++ String newline t).
  rewrite split_first_line by exact Hi.
  rewrite Lines by (try reflexivity; exact Ht).
  destruct (split_shape newline t) as (w & ws & E).
  rewrite <- (join_escaped_lines t), E. reflexivity.
Qed.

Lemma unterminated_fence_witness :
  parse_markdown ("```sh" ++ nl ++ "a && b" ++ nl ++ "# > c")
  = Ok ("<pre><code>" ++ nl ++ "a &amp;&amp; b" ++ nl ++ "# &gt; c").
Proof.
  destruct unterminated_fence as [_ H].
  apply (H "sh" ("a && b" ++ nl ++ "# > c")).
  - reflexivity.
  - repeat constructor.
Defined.

(** ** Lines that start no list item and no blockquote *)

(** Outside a fence, a line that is no fence, blockquote or bullet line
    closes what is open and goes on to the header tests. *)
Lemma parse_line_other (inline : string -> result string) (h bl : list string)
  (u o b : bool) (line : string) :
  startswith "```" line = false -> startswith "> " line = false ->
  is_bullet line = false ->
  parse_line inline (State h false u o b bl) line
  = block_line inline
      (State (h ++ closed_all u (o && negb (matches ol_prefix_re line)) b bl)
         false false (o && matches ol_prefix_re line) false
         (if b then [] else bl))
      line.
Proof.
  intros HF HQ HB. unfold parse_line, close_lists, closed_all.
  rewrite HF, HQ, HB.
  destruct (matches ol_prefix_re line), u, o, b;
    repeat (progress (reduce_goal; cbn [andb negb orb]));
    rewrite <- ?app_assoc, ?app_nil_r; reflexivity.
Qed.

Lemma differs_from (k : cclass) (b : bool) (x c : ascii) :
  in_class k c = b -> in_class k x = negb b ->
  Ascii.eqb x c = false /\ Ascii.eqb c x = false.
Proof.
  intros Hc Hx.
  assert (E : Ascii.eqb x c = false).
  { destruct (Ascii.eqb x c) eqn:E; [|reflexivity].
    apply Ascii.eqb_eq in E; subst x. rewrite Hc in Hx. now destruct b. }
  split; [exact E|now rewrite Ascii.eqb_sym].
Qed.

Lemma space_not_digit (c : ascii) :
  isspace c = true -> in_class Digit c = false.
Proof.
  unfold isspace, in_class, code_in. intros H.
  destruct ((48 <=? nat_of_ascii c)%nat && (nat_of_ascii c <=? 57)%nat) eqn:E;
    [|reflexivity].
  apply andb_prop in E as [E1 E2].
  apply Nat.leb_le in E1, E2.
  repeat (apply orb_prop in H as [H|H]);
    apply andb_prop in H as [H1 H2]; apply Nat.leb_le in H1, H2; lia.
Qed.

Lemma not_digit_not_numbered (c : ascii) (r : string) :
  in_class Digit c = false ->
  matches ol_prefix_re (String c r) = false
  /\ re_match ol_item_re (String c r) = None.
Proof.
  intros H. unfold matches, re_match, ol_prefix_re, ol_item_re, plus, cap_plus.
  cbn [match_at span]. rewrite H. split; reflexivity.
Qed.

(** X4: outside a fence, and whatever is open, a line of one to four
    hashes and a space closes the open lists and flushes the open
    blockquote, then appends the header of that level holding the
    inline-processed rest of the line; four hashes are tried first, so the
    level is the number of hashes. *)
Theorem header_levels (h bl : list string) (u o b : bool) (rest r : string) :
  process_inline rest = Ok r ->
  let after (tag : string) :=
    Ok (State (h ++ closed_all u o b bl ++ [wrap tag r])%list false false
          false false (if b then [] else bl)) in
  let before := State h false u o b bl in
  parse_line process_inline before ("#### " ++ rest) = after "h4"
  /\ parse_line process_inline before ("### " ++ rest) = after "h3"
  /\ parse_line process_inline before ("## " ++ rest) = after "h2"
  /\ parse_line process_inline before ("# " ++ rest) = after "h1".
Proof.
  intros Hr after before. subst after before.
  repeat split; rewrite parse_line_other by reflexivity;
    match goal with
    | |- context [matches ol_prefix_re ?l] =>
        change (matches ol_prefix_re l) with false
    end;
    cbn [negb]; rewrite andb_true_r, andb_false_r; unfold block_line;
    [ change (startswith "#### " ("#### " ++ rest)) with true
    | change (startswith "#### " ("### " ++ rest)) with false;
      change (startswith "### " ("### " ++ rest)) with true
    | change (startswith "#### " ("## " ++ rest)) with false;
      change (startswith "### " ("## " ++ rest)) with false;
      change (startswith "## " ("## " ++ rest)) with true
    | change (startswith "#### " ("# " ++ rest)) with false;
      change (startswith "### " ("# " ++ rest)) with false;
      change (startswith "## " ("# " ++ rest)) with false;
      change (startswith "# " ("# " ++ rest)) with true ];
    cbv iota;
    match goal with
    | |- context [slice_from ?k (?p ++ rest)] =>
        change (slice_from k (p ++ rest)) with rest
    end;
    rewrite Hr; reduce_goal; rewrite <- ?app_assoc; reflexivity.
Qed.

Lemma header_levels_witness :
  parse_line process_inline
    (State ["<ol>"; "<li>a</li>"] false false true false []) "## *T*"
  = Ok (State ["<ol>"; "<li>a</li>"; "</ol>"; "<h2><em>T</em></h2>"] false
          false false false []).
Proof.
  destruct (header_levels ["<ol>"; "<li>a</li>"] [] false true false "*T*"
              "<em>T</em>" eq_refl) as (_ & _ & H & _).
  exact H.
Defined.

Lemma space_differs (x c : ascii) :
  isspace c = true -> isspace x = false -> Ascii.eqb x c = false.
Proof.
  intros Hc Hx. destruct (Ascii.eqb x c) eqn:E; [|reflexivity].
  apply Ascii.eqb_eq in E; subst x. congruence.
Qed.

(** What a line is not when its first character is none of the backtick,
    [>], [#], [-], [*] and no digit. *)
Lemma other_head (c : ascii) (r : string) :
  Ascii.eqb "`" c = false -> Ascii.eqb ">" c = false ->
  Ascii.eqb "#" c = false -> in_class Digit c = false ->
  startswith "```" (String c r) = false
  /\ startswith "> " (String c r) = false
  /\ startswith "#### " (String c r) = false
  /\ startswith "### " (String c r) = false
  /\ startswith "## " (String c r) = false
  /\ startswith "# " (String c r) = false
  /\ matches ol_prefix_re (String c r) = false
  /\ re_match ol_item_re (String c r) = None.
Proof.
  intros H1 H2 H3 H4. cbn [startswith]. rewrite H1, H2, H3.
  destruct (not_digit_not_numbered c r H4) as [-> ->]. repeat split.
Qed.

Lemma space_head (c : ascii) (r : string) :
  isspace c = true ->
  startswith "```" (String c r) = false
  /\ startswith "> " (String c r) = false
  /\ startswith "#### " (String c r) = false
  /\ startswith "### " (String c r) = false
  /\ startswith "## " (String c r) = false
  /\ startswith "# " (String c r) = false
  /\ matches ol_prefix_re (String c r) = false
  /\ re_match ol_item_re (String c r) = None.
Proof.
  intros H. apply other_head;
    try (apply (space_differs _ _ H); reflexivity).
  now apply space_not_digit.
Qed.

Lemma rule_head (line : string) :
  is_rule line = true ->
  exists c r,
    line = String c r
    /\ (isspace c = true \/ c = "-"%char \/ c = "*"%char \/ c = "_"%char).
Proof.
  intros H. destruct line as [|c r]; [discriminate|].
  exists c, r. split; [reflexivity|].
  destruct (isspace c) eqn:Hs; [now left|right].
  unfold is_rule in H. rewrite (strip_cons _ _ Hs) in H.
  cbn [existsb String.eqb] in H.
  repeat (apply orb_prop in H as [H|H]); try discriminate;
    apply andb_prop in H as [H _]; apply Ascii.eqb_eq in H; auto.
Qed.

Lemma rule_facts (line : string) :
  is_rule line = true ->
  startswith "```" line = false
  /\ startswith "> " line = false
  /\ startswith "#### " line = false
  /\ startswith "### " line = false
  /\ startswith "## " line = false
  /\ startswith "# " line = false
  /\ matches ol_prefix_re line = false
  /\ re_match ol_item_re line = None.
Proof.
  intros H. destruct (rule_head _ H) as (c & r & -> & [Hs|[->|[->| ->]]]).
  - now apply space_head.
  - repeat split.
  - repeat split.
  - repeat split.
Qed.

(** X5: outside a fence, a line whose stripped text is [---], [***] or
    [___], whatever white space surrounds it, closes the open lists and
    flushes the open blockquote, then appends [<hr>]; the inline
    transformer is not called, whatever it is. *)
Theorem rule_line (inline : string -> result string) (h bl : list string)
  (u o b : bool) (line : string) :
  is_rule line = true ->
  parse_line inline (State h false u o b bl) line
  = Ok (State (h ++ closed_all u o b bl ++ ["<hr>"])%list false false false
          false (if b then [] else bl)).
Proof.
  intros H.
  destruct (rule_facts _ H) as (HF & HQ & H4 & H3 & H2 & H1 & HP & _).
  assert (HB : is_bullet line = false).
  { destruct (is_bullet line) eqn:E; [|reflexivity].
    apply bullet_not_rule in E. congruence. }
  rewrite (parse_line_other _ _ _ _ _ _ _ HF HQ HB), HP.
  cbn [negb]. rewrite andb_true_r, andb_false_r.
  unfold block_line. rewrite H4, H3, H2, H1, H.
  reduce_goal. rewrite <- ?app_assoc. reflexivity.
Qed.

Lemma rule_line_witness :
  parse_line (fun _ => Raise AttributeError)
    (State ["<ul>"; "<li>a</li>"] false true false false []) "  ***  "
  = Ok (State ["<ul>"; "<li>a</li>"; "</ul>"; "<hr>"] false false false false
          []).
Proof.
  exact (rule_line (fun _ => Raise AttributeError) ["<ul>"; "<li>a</li>"] []
           true false false "  ***  " eq_refl).
Defined.

Lemma blank_facts (line : string) :
  String.eqb (strip line) EmptyString = true ->
  startswith "```" line = false
  /\ startswith "> " line = false
  /\ startswith "#### " line = false
  /\ startswith "### " line = false
  /\ startswith "## " line = false
  /\ startswith "# " line = false
  /\ matches ol_prefix_re line = false
  /\ re_match ol_item_re line = None.
Proof.
  intros H. destruct line as [|c r]; [repeat split|].
  destruct (isspace c) eqn:Hs; [now apply space_head|].
  rewrite (strip_cons _ _ Hs) in H. discriminate.
Qed.

(** X6: outside a fence, a line of white space only, the empty line
    included, closes the open lists and flushes the open blockquote, then
    appends an empty fragment; so a blank line between two list items ends
    the list, and the inline transformer is not called. *)
Theorem blank_line (inline : string -> result string) (h bl : list string)
  (u o b : bool) (line : string) :
  String.eqb (strip line) EmptyString = true ->
  parse_line inline (State h false u o b bl) line
  = Ok (State (h ++ closed_all u o b bl ++ [EmptyString])%list false false
          false false (if b then [] else bl)).
Proof.
  intros H.
  destruct (blank_facts _ H) as (HF & HQ & H4 & H3 & H2 & H1 & HP & HM).
  assert (HR : is_rule line = false).
  { unfold is_rule. apply String.eqb_eq in H. rewrite H. reflexivity. }
  assert (HB : is_bullet line = false).
  { destruct (is_bullet line) eqn:E; [|reflexivity].
    apply is_bullet_cut in E as [r [-> | ->]]; simpl append in H;
      rewrite strip_cons in H by reflexivity; discriminate. }
  rewrite (parse_line_other _ _ _ _ _ _ _ HF HQ HB), HP.
  cbn [negb]. rewrite andb_true_r, andb_false_r.
  unfold block_line. rewrite H4, H3, H2, H1, HR, HB, HM, H.
  reduce_goal. rewrite <- ?app_assoc. reflexivity.
Qed.

Lemma blank_line_witness :
  parse_loop process_inline initial ["- a"; "   "; "- b"]
  = Ok (State ["<ul>"; "<li>a</li>"; "</ul>"; EmptyString; "<ul>";
               "<li>b</li>"] false true false false []).
Proof.
  cbn [parse_loop].
  change (parse_line process_inline initial "- a")
    with (Ok (State ["<ul>"; "<li>a</li>"] false true false false [])).
  cbn [bind].
  rewrite (blank_line process_inline ["<ul>"; "<li>a</li>"] [] true false
             false "   " eq_refl).
  reflexivity.
Defined.

(** ** Numbered items *)

Lemma span_all_stop (k : cclass) (a : string) (c : ascii) (r : string) :
  all_in k a = true -> in_class k c = false ->
  span k (a ++ String c r) = String.length a.
Proof.
  intros Ha Hc. induction a as [|d a IH]; simpl in *.
  - now rewrite Hc.
  - apply andb_prop in Ha as [Hd Ha]. rewrite Hd. now rewrite IH.
Qed.

Lemma span_all_end (k : cclass) (a : string) :
  all_in k a = true -> span k a = String.length a.
Proof.
  induction a as [|d a IH]; simpl; [reflexivity|].
  intros Ha. apply andb_prop in Ha as [Hd Ha]. rewrite Hd. now rewrite IH.
Qed.

Lemma match_at_rep_all_stop (cap : bool) (k : cclass) (least : nat)
  (p : pattern) (prev : option ascii) (a : string) (c : ascii) (r : string)
  (gs : list string) (m : nat) :
  all_in k a = true -> in_class k c = false ->
  least <= String.length a ->
  match_at p (last_of prev a) (String c r) = Some (gs, m) ->
  match_at (Rep cap k least :: p) prev (a ++ String c r)
  = Some (if cap then a :: gs else gs, String.length a + m).
Proof.
  intros Ha Hc Hl Hm. cbn [match_at]. rewrite (span_all_stop _ _ _ _ Ha Hc).
  apply descend_first; [exact Hl|].
  rewrite slice_to_app, slice_from_app, Hm. now destruct cap.
Qed.

Lemma match_at_rep_all_end (cap : bool) (k : cclass) (least : nat)
  (p : pattern) (prev : option ascii) (a : string) (gs : list string)
  (m : nat) :
  all_in k a = true -> least <= String.length a ->
  match_at p (last_of prev a) EmptyString = Some (gs, m) ->
  match_at (Rep cap k least :: p) prev a
  = Some (if cap then a :: gs else gs, String.length a + m).
Proof.
  intros Ha Hl Hm. cbn [match_at]. rewrite (span_all_end _ _ Ha).
  apply descend_first; [exact Hl|].
  pose proof (slice_to_app a EmptyString) as E1.
  pose proof (slice_from_app a EmptyString) as E2.
  rewrite append_nil_r in E1, E2. rewrite E1, E2, Hm. now destruct cap.
Qed.

Lemma nonempty_length (s : string) : s <> EmptyString -> 1 <= String.length s.
Proof. destruct s; [congruence|simpl; lia]. Qed.

Lemma digit_not_dot : in_class Digit "." = false.
Proof. reflexivity. Qed.

(** The two patterns of the numbered list on a well-formed item. *)
Lemma numbered_item_matches (d t : string) :
  d <> EmptyString -> all_in Digit d = true ->
  t <> EmptyString -> all_in Dot t = true ->
  matches ol_prefix_re (d ++ ". " ++ t) = true
  /\ exists w, re_match ol_item_re (d ++ ". " ++ t) = Some (MatchObj w [d; t]).
Proof.
  intros Hd Dd Ht Dt. unfold matches, re_match, ol_prefix_re, ol_item_re,
    plus, cap_plus.
  simpl append.
  change (match_at (Bol :: ?p) None ?s) with (match_at p None s).
  rewrite (match_at_rep_all_stop false Digit 1 _ None d "." _ [] 2 Dd
             digit_not_dot (nonempty_length _ Hd));
    [|rewrite !match_at_lit; reflexivity].
  split; [reflexivity|].
  rewrite (match_at_rep_all_stop true Digit 1 _ None d "." _ [t]
             (1 + (1 + (String.length t + 0))) Dd digit_not_dot
             (nonempty_length _ Hd)); [eauto|].
  rewrite !match_at_lit.
  rewrite (match_at_rep_all_end true Dot 1 _ _ t [] 0 Dt
             (nonempty_length _ Ht)); reflexivity.
Qed.

Lemma digit_head (c : ascii) (r : string) :
  in_class Digit c = true ->
  startswith "```" (String c r) = false
  /\ startswith "> " (String c r) = false
  /\ startswith "#### " (String c r) = false
  /\ startswith "### " (String c r) = false
  /\ startswith "## " (String c r) = false
  /\ startswith "# " (String c r) = false
  /\ is_bullet (String c r) = false
  /\ is_rule (String c r) = false
  /\ String.eqb (strip (String c r)) EmptyString = false.
Proof.
  intros H.
  assert (N : forall x, in_class Digit x = false ->
                        Ascii.eqb x c = false /\ Ascii.eqb c x = false)
    by (intros x Hx; now apply (differs_from Digit true)).
  assert (Hs : isspace c = false).
  { destruct (isspace c) eqn:E; [|reflexivity].
    apply space_not_digit in E. congruence. }
  unfold is_bullet, is_rule. rewrite (strip_cons _ _ Hs).
  cbn [startswith existsb String.eqb].
  destruct (N "`"%char eq_refl) as [-> _]. destruct (N ">"%char eq_refl) as [-> _].
  destruct (N "#"%char eq_refl) as [-> _]. destruct (N "-"%char eq_refl) as [-> ->].
  destruct (N "*"%char eq_refl) as [-> ->]. destruct (N "_"%char eq_refl) as [_ ->].
  repeat split.
Qed.

(** X7: outside a fence, a line of digits, a dot, a space and a text that is
    not empty closes an open bullet list and flushes an open blockquote,
    opens a numbered list unless one is open, and appends one item holding
    the inline-processed text; the digits are not in the output, so the
    number written by the author is discarded. *)
Theorem numbered_item (h bl : list string) (u o b : bool) (d t r : string) :
  d <> EmptyString -> all_in Digit d = true ->
  t <> EmptyString -> all_in Dot t = true ->
  process_inline t = Ok r ->
  parse_line process_inline (State h false u o b bl) (d ++ ". " ++ t)
  = Ok (State
          (h ++ closed_all u false b bl ++ (if o then [] else ["<ol>"])
             ++ [wrap "li" r])%list
          false false true false (if b then [] else bl)).
Proof.
  intros Hd Dd Ht Dt Hr.
  destruct (numbered_item_matches d t Hd Dd Ht Dt) as (HP & w & HM).
  destruct d as [|c d]; [congruence|].
  pose proof Dd as Dc. cbn [all_in] in Dc. apply andb_prop in Dc as [Dc _].
  simpl append in *.
  destruct (digit_head c (d ++ ". " ++ t) Dc)
    as (HF & HQ & H4 & H3 & H2 & H1 & HB & HR & _).
  simpl append in *.
  rewrite (parse_line_other _ _ _ _ _ _ _ HF HQ HB), HP.
  cbn [negb]. rewrite andb_false_r, andb_true_r.
  unfold block_line. rewrite H4, H3, H2, H1, HR, HB, HM.
  destruct o; reduce_goal; cbn [group groups nth_error bind]; rewrite Hr;
    reduce_goal; rewrite <- ?app_assoc; reflexivity.
Qed.

Lemma numbered_item_witness :
  parse_line process_inline
    (State ["<ol>"; "<li>a</li>"] false false true false []) "7. **c**"
  = Ok (State ["<ol>"; "<li>a</li>"; "<li><strong>c</strong></li>"] false
          false true false []).
Proof.
  apply (numbered_item ["<ol>"; "<li>a</li>"] [] false true false "7" "**c**"
           "<strong>c</strong>"); try reflexivity; discriminate.
Defined.

Lemma item_tail_fails (d : string) :
  all_in Digit d = true ->
  forall k prev,
    match_at [Lit "."; Lit " "; cap_plus Dot; Eol] prev
      (slice_from k (d ++ ". "))
    = None.
Proof.
  intros Dd. induction d as [|c d IH]; intros k prev.
  - destruct k as [|[|[|k]]]; reflexivity.
  - cbn [all_in] in Dd. apply andb_prop in Dd as [Dc Dd].
    destruct k as [|k]; [|apply (IH Dd)].
    cbn [slice_from append match_at].
    destruct (differs_from Digit true "." c Dc eq_refl) as [-> _].
    reflexivity.
Qed.

Lemma empty_item_matches (d : string) :
  d <> EmptyString -> all_in Digit d = true ->
  matches ol_prefix_re (d ++ ". ") = true
  /\ re_match ol_item_re (d ++ ". ") = None.
Proof.
  intros Hd Dd. unfold matches, re_match, ol_prefix_re, ol_item_re, plus.
  simpl append.
  change (match_at (Bol :: ?p) None ?s) with (match_at p None s).
  rewrite (match_at_rep_all_stop false Digit 1 _ None d "." _ [] 2 Dd
             digit_not_dot (nonempty_length _ Hd));
    [|rewrite !match_at_lit; reflexivity].
  split; [reflexivity|].
  unfold cap_plus at 1.
  change (match_at (Rep true ?k ?least :: ?p) ?pr ?s)
    with (descend least
            (fun n =>
               advance n (Some (slice_to n s))
                 (match_at p (last_of pr (slice_to n s)) (slice_from n s)))
            (span k s)).
  rewrite descend_none; [reflexivity|].
  intros k. change (d ++ String "." " ") with (d ++ ". ").
  now rewrite (item_tail_fails d Dd).
Qed.

(** X8: a numbered item with nothing after its space is no item: the line
    of digits, a dot and a space is appended as a paragraph; as it still
    matches the test that keeps a numbered list open, the list is not
    closed, and the paragraph stands inside it. *)
Theorem empty_numbered_item (h bl : list string) (u o b : bool)
  (d r : string) :
  d <> EmptyString -> all_in Digit d = true ->
  process_inline (d ++ ". ") = Ok r ->
  parse_line process_inline (State h false u o b bl) (d ++ ". ")
  = Ok (State (h ++ closed_all u false b bl ++ [wrap "p" r])%list false false
          o false (if b then [] else bl)).
Proof.
  intros Hd Dd Hr.
  destruct (empty_item_matches d Hd Dd) as (HP & HM).
  destruct d as [|c d]; [congruence|].
  pose proof Dd as Dc. cbn [all_in] in Dc. apply andb_prop in Dc as [Dc _].
  destruct (digit_head c (d ++ ". ") Dc)
    as (HF & HQ & H4 & H3 & H2 & H1 & HB & HR & HE).
  simpl append in *.
  rewrite (parse_line_other _ _ _ _ _ _ _ HF HQ HB), HP.
  cbn [negb]. rewrite andb_false_r, andb_true_r.
  unfold block_line. rewrite H4, H3, H2, H1, HR, HB, HM, HE, Hr.
  reduce_goal. rewrite <- ?app_assoc. reflexivity.
Qed.

Lemma empty_numbered_item_witness :
  parse_loop process_inline initial ["1. a"; "2. "; "3. c"]
  = Ok (State ["<ol>"; "<li>a</li>"; "<p>2. </p>"; "<li>c</li>"] false false
          true false []).
Proof.
  cbn [parse_loop].
  change (parse_line process_inline initial "1. a")
    with (Ok (State ["<ol>"; "<li>a</li>"] false false true false [])).
  cbn [bind].
  change "2. " with ("2" ++ ". ").
  rewrite (empty_numbered_item ["<ol>"; "<li>a</li>"] [] false true false "2"
             "2. "); try reflexivity; discriminate.
Defined.

(** ** What escaping guarantees *)

Lemma contains_char_expand (c : ascii) (f : ascii -> string) (s : string) :
  (forall d, contains (String c EmptyString) (f d) = false) ->
  contains (String c EmptyString) (expand_chars f s) = false.
Proof.
  intros Hf. induction s as [|d s IH]; [reflexivity|].
  cbn [expand_chars]. now rewrite contains_char_app, Hf, IH.
Qed.

Lemma escape_char_no (c : ascii) :
  c = "<"%char \/ c = ">"%char ->
  forall d, contains (String c EmptyString) (escape_char d) = false.
Proof.
  intros Hc d. unfold escape_char.
  destruct (Ascii.eqb d "&") eqn:E1; [destruct Hc; subst; reflexivity|].
  destruct (Ascii.eqb d "<") eqn:E2; [destruct Hc; subst; reflexivity|].
  destruct (Ascii.eqb d ">") eqn:E3; [destruct Hc; subst; reflexivity|].
  rewrite contains_char_cons, orb_false_r, Ascii.eqb_sym.
  destruct Hc; subst; assumption.
Qed.

(** X9: the result of [escape_html] holds no [<] and no [>], whatever the
    text: nothing a code block shows can open or close a tag. *)
Theorem escape_html_no_angle (text : string) :
  contains "<" (escape_html text) = false
  /\ contains ">" (escape_html text) = false.
Proof.
  rewrite escape_html_chars.
  split; apply contains_char_expand, escape_char_no; auto.
Qed.

Ltac ground_eqb :=
  repeat match goal with
         | H : Ascii.eqb _ _ = true |- _ => apply Ascii.eqb_eq in H; subst
         end.

Lemma escape_chars_inj (a : string) :
  forall b,
    expand_chars escape_char a = expand_chars escape_char b -> a = b.
Proof.
  induction a as [|c a IH]; intros [|d b]; cbn [expand_chars]; intros H.
  - reflexivity.
  - exfalso. unfold escape_char in H.
    destruct (Ascii.eqb d "&"), (Ascii.eqb d "<"), (Ascii.eqb d ">");
      discriminate.
  - exfalso. unfold escape_char in H.
    destruct (Ascii.eqb c "&"), (Ascii.eqb c "<"), (Ascii.eqb c ">");
      discriminate.
  - unfold escape_char in H.
    destruct (Ascii.eqb c "&") eqn:C1;
      [|destruct (Ascii.eqb c "<") eqn:C2;
        [|destruct (Ascii.eqb c ">") eqn:C3]];
      (destruct (Ascii.eqb d "&") eqn:D1;
       [|destruct (Ascii.eqb d "<") eqn:D2;
         [|destruct (Ascii.eqb d ">") eqn:D3]]);
      ground_eqb; simpl in H; inversion H; subst;
      try discriminate; try (f_equal; now apply IH).
Qed.

(** X10: [escape_html] loses nothing: two different texts have different
    escapes, so a text that was already escaped and the raw text it came
    from are never confused. *)
Theorem escape_html_injective (a b : string) :
  a <> b -> escape_html a <> escape_html b.
Proof.
  intros Hab H. apply Hab. rewrite !escape_html_chars in H.
  now apply escape_chars_inj.
Qed.

Lemma escape_html_injective_witness :
  escape_html "a &lt; b" <> escape_html "a < b".
Proof. apply (escape_html_injective "a &lt; b" "a < b"). discriminate. Defined.

(** ** Spans the inline rules rewrite *)

Lemma contains_pair_app (c : ascii) (a b : string) :
  contains (String c (String c EmptyString)) a = false ->
  contains (String c (String c EmptyString)) b = false ->
  startswith (String c EmptyString) b = false ->
  contains (String c (String c EmptyString)) (a ++ b) = false.
Proof.
  intros Ha Hb Hs. induction a as [|x a IH]; [exact Hb|].
  apply contains_false_inv in Ha as [Hx Ha].
  simpl append.
  change (contains ?w (String x (a ++ b)))
    with (startswith w (String x (a ++ b)) || contains w (a ++ b)).
  rewrite (IH Ha), orb_false_r.
  destruct a as [|y a]; cbn [startswith append] in *.
  - rewrite Hs. apply andb_false_r.
  - exact Hx.
Qed.

Lemma contains_pair_wrap (c : ascii) (a x b : string) :
  x <> EmptyString ->
  contains (String c EmptyString) x = false ->
  contains (String c (String c EmptyString)) a = false ->
  contains (String c (String c EmptyString)) b = false ->
  contains (String c (String c EmptyString)) (a ++ x ++ b) = false.
Proof.
  intros Hne Hx Ha Hb. induction a as [|y a IH].
  - simpl append. clear Hne. induction x as [|z x IHx]; [exact Hb|].
    rewrite contains_char_cons in Hx. apply orb_false_elim in Hx as [Hz Hx].
    simpl append.
    change (contains ?w (String z (x ++ b)))
      with (startswith w (String z (x ++ b)) || contains w (x ++ b)).
    rewrite (IHx Hx), orb_false_r. cbn [startswith]. now rewrite Hz.
  - apply contains_false_inv in Ha as [Hy Ha].
    simpl append.
    change (contains ?w (String y (a ++ x ++ b)))
      with (startswith w (String y (a ++ x ++ b)) || contains w (a ++ x ++ b)).
    rewrite (IH Ha), orb_false_r.
    destruct a as [|y' a]; cbn [startswith append] in *.
    + destruct x as [|z x]; cbn [append startswith].
      * congruence.
      * rewrite contains_char_cons in Hx.
        apply orb_false_elim in Hx as [Hz _]. rewrite Hz.
        apply andb_false_r.
    + exact Hy.
Qed.

Lemma contains_pair_cons (c y : ascii) (s : string) :
  Ascii.eqb c y = false ->
  contains (String c (String c EmptyString)) (String y s)
  = contains (String c (String c EmptyString)) s.
Proof.
  intros H.
  change (contains ?w (String y s))
    with (startswith w (String y s) || contains w s).
  cbn [startswith]. now rewrite H.
Qed.

Lemma sub_from_whole (p : pattern) (t : template) (c : ascii) (s : string)
  (gs : list string) :
  match_at p None (String c s) = Some (gs, S (String.length s)) ->
  (forall prev, match_at p prev EmptyString = None) ->
  sub_from p t 0 None (String c s) = expand t gs.
Proof.
  intros Hm He. cbn [sub_from]. rewrite Hm, sub_from_skip_all by exact He.
  apply append_nil_r.
Qed.

(** A span between two delimiters of one character. *)
Lemma wrapped1_match (c : ascii) (p : pattern) (x : string)
  (prev : option ascii) :
  x <> EmptyString -> contains (String c EmptyString) x = false ->
  match_at p (Some c) EmptyString = Some ([], 0) ->
  match_at (Lit c :: cap_plus (NoneOf (String c EmptyString)) :: Lit c :: p)
    prev (String c (x ++ String c EmptyString))
  = Some ([x], S (String.length (x ++ String c EmptyString))).
Proof.
  intros Hne Hx Hp. rewrite match_at_lit. unfold cap_plus.
  rewrite (match_at_rep_stop c 1 _ _ x _ [] 1 Hx (nonempty_length _ Hne)).
  - rewrite length_app. reflexivity.
  - now rewrite match_at_lit, Hp.
Qed.

(** A span between two delimiters of two characters. *)
Lemma wrapped2_match (c : ascii) (x : string) (prev : option ascii) :
  x <> EmptyString -> contains (String c EmptyString) x = false ->
  match_at [Lit c; Lit c; cap_plus (NoneOf (String c EmptyString)); Lit c;
            Lit c]
    prev (String c (String c (x ++ String c (String c EmptyString))))
  = Some ([x],
          S (String.length
               (String c (x ++ String c (String c EmptyString))))).
Proof.
  intros Hne Hx. rewrite !match_at_lit. unfold cap_plus.
  rewrite (match_at_rep_stop c 1 _ _ x _ [] 2 Hx (nonempty_length _ Hne)).
  - cbn [String.length]. rewrite length_app. reflexivity.
  - now rewrite !match_at_lit.
Qed.

Ltac no_char H :=
  simpl append; repeat rewrite contains_char_cons;
  rewrite ?contains_char_app; repeat rewrite H;
  repeat rewrite contains_char_cons; reflexivity.

Ltac no_pair H :=
  simpl append; rewrite ?contains_pair_cons by reflexivity;
  apply contains_pair_app; [exact H|reflexivity|reflexivity].

Ltac skip P T W O tac := rewrite (sub_from_absent W P T O) by tac.

Ltac skip_image H :=
  skip image_re image_to "![" (opens_with_lit2 "!" "[" (tl (tl image_re)))
    ltac:(apply contains_longer; no_char H).
Ltac skip_link H :=
  skip link_re link_to "[" (opens_with_lit "[" (tl link_re)) ltac:(no_char H).
Ltac skip_code H :=
  skip code_re code_to "`" (opens_with_lit "`" (tl code_re)) ltac:(no_char H).
Ltac skip_mark tac :=
  skip mark_re mark_to "==" (opens_with_lit2 "=" "=" (tl (tl mark_re))) tac.
Ltac skip_bold_star H :=
  skip bold_star_re strong_to "*" (opens_with_lit "*" (tl bold_star_re))
    ltac:(no_char H).
Ltac skip_bold_under H :=
  skip bold_under_re strong_to "_" (opens_with_lit "_" (tl bold_under_re))
    ltac:(no_char H).
Ltac skip_italic_star H :=
  skip italic_star_re em_to "*" (opens_with_lit "*" (tl italic_star_re))
    ltac:(no_char H).
Ltac skip_italic_under H :=
  skip italic_under_re em_to "_"
    (opens_with_behind Letter "_" _
       (opens_with_lit "_" (tl (tl italic_under_re))))
    ltac:(no_char H).

Lemma code_span (x : string) :
  x <> EmptyString -> unstyled x = true ->
  process_inline ("`" ++ x ++ "`") = Ok ("<code>" ++ x ++ "</code>").
Proof.
  intros Hne H. apply unstyled_parts in H as (Hc & Hs & Hu & He & Hb).
  rewrite process_inline_unfold.
  skip_image Hb. skip_link Hb.
  simpl append at 1.
  rewrite (sub_from_whole code_re code_to _ _ [x]);
    [|exact (wrapped1_match "`" [] x None Hne Hc eq_refl)
     |reflexivity].
  cbn [expand code_to nth Nat.sub]. rewrite append_nil_r.
  skip_mark ltac:(no_pair He).
  skip_bold_star Hs. skip_bold_under Hu. skip_italic_star Hs.
  skip_italic_under Hu. reflexivity.
Qed.

Lemma mark_span (x : string) :
  x <> EmptyString -> unstyled x = true -> contains "=" x = false ->
  process_inline ("==" ++ x ++ "==") = Ok ("<mark>" ++ x ++ "</mark>").
Proof.
  intros Hne H Heq. apply unstyled_parts in H as (Hc & Hs & Hu & He & Hb).
  rewrite process_inline_unfold.
  skip_image Hb. skip_link Hb. skip_code Hc.
  simpl append at 1.
  rewrite (sub_from_whole mark_re mark_to _ _ [x]);
    [|exact (wrapped2_match "=" x None Hne Heq)|reflexivity].
  cbn [expand mark_to nth Nat.sub]. rewrite append_nil_r.
  skip_bold_star Hs. skip_bold_under Hu. skip_italic_star Hs.
  skip_italic_under Hu. reflexivity.
Qed.

Lemma bold_star_span (x : string) :
  x <> EmptyString -> unstyled x = true ->
  process_inline ("**" ++ x ++ "**") = Ok ("<strong>" ++ x ++ "</strong>").
Proof.
  intros Hne H. apply unstyled_parts in H as (Hc & Hs & Hu & He & Hb).
  rewrite process_inline_unfold.
  skip_image Hb. skip_link Hb. skip_code Hc. skip_mark ltac:(no_pair He).
  simpl append at 1.
  rewrite (sub_from_whole bold_star_re strong_to _ _ [x]);
    [|exact (wrapped2_match "*" x None Hne Hs)|reflexivity].
  cbn [expand strong_to nth Nat.sub]. rewrite append_nil_r.
  skip_bold_under Hu. skip_italic_star Hs. skip_italic_under Hu.
  reflexivity.
Qed.

Lemma bold_under_span (x : string) :
  x <> EmptyString -> unstyled x = true ->
  process_inline ("__" ++ x ++ "__") = Ok ("<strong>" ++ x ++ "</strong>").
Proof.
  intros Hne H. apply unstyled_parts in H as (Hc & Hs & Hu & He & Hb).
  rewrite process_inline_unfold.
  skip_image Hb. skip_link Hb. skip_code Hc. skip_mark ltac:(no_pair He).
  skip_bold_star Hs.
  simpl append at 1.
  rewrite (sub_from_whole bold_under_re strong_to _ _ [x]);
    [|exact (wrapped2_match "_" x None Hne Hu)|reflexivity].
  cbn [expand strong_to nth Nat.sub]. rewrite append_nil_r.
  skip_italic_star Hs. skip_italic_under Hu. reflexivity.
Qed.

Lemma italic_star_span (x : string) :
  x <> EmptyString -> unstyled x = true ->
  process_inline ("*" ++ x ++ "*") = Ok ("<em>" ++ x ++ "</em>").
Proof.
  intros Hne H. apply unstyled_parts in H as (Hc & Hs & Hu & He & Hb).
  rewrite process_inline_unfold.
  skip_image Hb. skip_link Hb. skip_code Hc. skip_mark ltac:(no_pair He).
  skip bold_star_re strong_to "**"
    (opens_with_lit2 "*" "*" (tl (tl bold_star_re)))
    ltac:(apply (contains_pair_wrap "*" "*" x "*" Hne Hs); reflexivity).
  skip_bold_under Hu.
  simpl append at 1.
  rewrite (sub_from_whole italic_star_re em_to _ _ [x]);
    [|exact (wrapped1_match "*" [] x None Hne Hs eq_refl)|reflexivity].
  cbn [expand em_to nth Nat.sub]. rewrite append_nil_r.
  skip_italic_under Hu. reflexivity.
Qed.

Lemma italic_under_span (x : string) :
  x <> EmptyString -> unstyled x = true ->
  process_inline ("_" ++ x ++ "_") = Ok ("<em>" ++ x ++ "</em>").
Proof.
  intros Hne H. apply unstyled_parts in H as (Hc & Hs & Hu & He & Hb).
  rewrite process_inline_unfold.
  skip_image Hb. skip_link Hb. skip_code Hc. skip_mark ltac:(no_pair He).
  skip_bold_star Hs.
  skip bold_under_re strong_to "__"
    (opens_with_lit2 "_" "_" (tl (tl bold_under_re)))
    ltac:(apply (contains_pair_wrap "_" "_" x "_" Hne Hu); reflexivity).
  skip_italic_star Hs.
  simpl append at 1.
  rewrite (sub_from_whole italic_under_re em_to _ _ [x]).
  - cbn [expand em_to nth Nat.sub]. now rewrite append_nil_r.
  - exact (wrapped1_match "_" [NotAhead Letter] x None Hne Hu eq_refl).
  - intros [c|]; unfold italic_under_re; cbn [match_at];
      [destruct (in_class Letter c)|]; reflexivity.
Qed.

(** X11: a span that is not empty and holds no opener of an inline rule is
    rendered as one element by each delimiter: backticks give [code], two
    equals signs [mark] (when the span holds no equals sign), two asterisks
    or two underscores [strong], one asterisk or one underscore [em]. *)
Theorem delimited_spans (x : string) :
  x <> EmptyString -> unstyled x = true ->
  renderInline ("`" ++ x ++ "`") = Ok ("<code>" ++ x ++ "</code>")
  /\ (contains "=" x = false ->
      renderInline ("==" ++ x ++ "==") = Ok ("<mark>" ++ x ++ "</mark>"))
  /\ renderInline ("**" ++ x ++ "**") = Ok ("<strong>" ++ x ++ "</strong>")
  /\ renderInline ("__" ++ x ++ "__") = Ok ("<strong>" ++ x ++ "</strong>")
  /\ renderInline ("*" ++ x ++ "*") = Ok ("<em>" ++ x ++ "</em>")
  /\ renderInline ("_" ++ x ++ "_") = Ok ("<em>" ++ x ++ "</em>").
Proof.
  intros Hne H. unfold renderInline. repeat split.
  - now apply code_span.
  - intros Heq. now apply mark_span.
  - now apply bold_star_span.
  - now apply bold_under_span.
  - now apply italic_star_span.
  - now apply italic_under_span.
Qed.

Lemma delimited_spans_witness :
  renderInline "`x = y + 1`" = Ok "<code>x = y + 1</code>"
  /\ renderInline "==key point==" = Ok "<mark>key point</mark>"
  /\ renderInline "__very (very) bold__" = Ok "<strong>very (very) bold</strong>".
Proof.
  destruct (delimited_spans "x = y + 1" ltac:(discriminate) eq_refl)
    as (C & _).
  destruct (delimited_spans "key point" ltac:(discriminate) eq_refl)
    as (_ & M & _).
  destruct (delimited_spans "very (very) bold" ltac:(discriminate) eq_refl)
    as (_ & _ & _ & B & _).
  split; [exact C|split; [exact (M eq_refl)|exact B]].
Defined.

(** The link rule matches the whole of a link. *)
Lemma link_match (text url : string) (prev : option ascii) :
  text <> EmptyString -> contains "]" text = false ->
  url <> EmptyString -> contains ")" url = false ->
  match_at link_re prev
    (String "[" (text ++ String "]" (String "(" (url ++ ")"))))
  = Some ([text; url],
          S (String.length (text ++ String "]" (String "(" (url ++ ")"))))).
Proof.
  intros Ht Ct Hu Cu. unfold link_re, cap_plus. rewrite match_at_lit.
  rewrite (match_at_rep_stop "]" 1 _ _ text _ [url]
             (1 + (1 + (String.length url + 1))) Ct (nonempty_length _ Ht)).
  - rewrite ?length_app. simpl. rewrite ?length_app. reflexivity.
  - rewrite !match_at_lit.
    rewrite (match_at_rep_stop ")" 1 _ _ url _ [] 1 Cu
               (nonempty_length _ Hu)); [reflexivity|].
    now rewrite match_at_lit.
Qed.

Lemma contains_pair_cons2 (c y : ascii) (s : string) :
  Ascii.eqb c y = false ->
  contains (String c (String c EmptyString)) (String c (String y s))
  = contains (String c (String c EmptyString)) s.
Proof.
  intros H.
  change (contains ?w (String c (String y s)))
    with (startswith w (String c (String y s)) || contains w (String y s)).
  rewrite (contains_pair_cons c y s H). cbn [startswith].
  now rewrite H, andb_false_r.
Qed.

Ltac no_char2 H1 H2 :=
  simpl append; repeat rewrite contains_char_cons;
  rewrite ?contains_char_app; repeat rewrite contains_char_cons;
  rewrite ?contains_char_app; repeat rewrite H1; repeat rewrite H2;
  repeat rewrite contains_char_cons; reflexivity.

(** X12: a link whose text and URL are not empty and hold no opener of an
    inline rule, the text holding no closing bracket and the URL no
    closing parenthesis, is rendered as one anchor element. *)
Theorem link_rendered (text url : string) :
  text <> EmptyString -> url <> EmptyString ->
  unstyled text = true -> unstyled url = true ->
  contains "]" text = false -> contains ")" url = false ->
  renderInline ("[" ++ text ++ "](" ++ url ++ ")")
  = Ok ("<a href=" ++ q ++ url ++ q ++ ">" ++ text ++ "</a>").
Proof.
  intros Ht Hu Ut Uu Ct Cu.
  apply unstyled_parts in Ut as (Tc & Ts & Tu & Te & Tb).
  apply unstyled_parts in Uu as (Uc & Us & Uu' & Ue & Ub).
  unfold renderInline. rewrite process_inline_unfold.
  skip image_re image_to "![" (opens_with_lit2 "!" "[" (tl (tl image_re)))
    ltac:(simpl append;
          change (contains "![" (String "[" ?r)) with (contains "![" r);
          apply contains_longer; no_char2 Tb Ub).
  simpl append at 1.
  rewrite (sub_from_whole link_re link_to _ _ [text; url]);
    [|exact (link_match text url None Ht Ct Hu Cu)|reflexivity].
  cbn [expand link_to nth Nat.sub]. unfold q.
  rewrite ?append_assoc, append_nil_r. simpl append.
  skip code_re code_to "`" (opens_with_lit "`" (tl code_re))
    ltac:(no_char2 Tc Uc).
  skip_mark ltac:(rewrite ?contains_pair_cons by reflexivity;
                  rewrite contains_pair_cons2 by reflexivity;
                  apply contains_pair_app; [exact Ue| |reflexivity];
                  rewrite ?contains_pair_cons by reflexivity;
                  apply contains_pair_app; [exact Te|reflexivity|reflexivity]).
  skip bold_star_re strong_to "*" (opens_with_lit "*" (tl bold_star_re))
    ltac:(no_char2 Ts Us).
  skip bold_under_re strong_to "_" (opens_with_lit "_" (tl bold_under_re))
    ltac:(no_char2 Tu Uu').
  skip italic_star_re em_to "*" (opens_with_lit "*" (tl italic_star_re))
    ltac:(no_char2 Ts Us).
  skip italic_under_re em_to "_"
    (opens_with_behind Letter "_" _
       (opens_with_lit "_" (tl (tl italic_under_re))))
    ltac:(no_char2 Tu Uu').
  reflexivity.
Qed.

Lemma link_rendered_witness :
  renderInline "[the docs](https://example.org/a?b=1&c=2)"
  = Ok ("<a href=" ++ q ++ "https://example.org/a?b=1&c=2" ++ q
        ++ ">the docs</a>").
Proof.
  apply (link_rendered "the docs" "https://example.org/a?b=1&c=2");
    try reflexivity; discriminate.
Defined.

(** ** Underscores inside words *)

Lemma italic_under_guarded (s : string) :
  forall prev,
    inner_underscores prev s = true ->
    sub_from italic_under_re em_to 0 prev s = s.
Proof.
  induction s as [|c s IH]; intros prev H.
  - cbn [sub_from]. unfold italic_under_re. cbn [match_at].
    destruct prev as [p|]; [destruct (in_class Letter p)|]; reflexivity.
  - cbn [inner_underscores] in H. apply andb_prop in H as [Hc Hs].
    cbn [sub_from]. unfold italic_under_re at 1. cbn [match_at].
    rewrite (IH _ Hs).
    destruct (Ascii.eqb "_" c).
    + destruct prev as [p|]; [rewrite Hc; reflexivity|discriminate].
    + destruct prev as [p|]; [destruct (in_class Letter p)|]; reflexivity.
Qed.

Lemma inner_underscores_no_pair (s : string) :
  forall prev, inner_underscores prev s = true -> contains "__" s = false.
Proof.
  induction s as [|c s IH]; intros prev H; [reflexivity|].
  cbn [inner_underscores] in H. apply andb_prop in H as [_ Hs].
  change (contains "__" (String c s))
    with (startswith "__" (String c s) || contains "__" s).
  rewrite (IH _ Hs), orb_false_r. cbn [startswith].
  destruct (Ascii.eqb "_" c) eqn:Ec; [|reflexivity].
  apply Ascii.eqb_eq in Ec; subst c.
  destruct s as [|d s]; [reflexivity|].
  cbn [inner_underscores] in Hs. cbn [startswith].
  destruct (Ascii.eqb "_" d); [discriminate|reflexivity].
Qed.

(** X13: underscores inside words are left alone: a text with no
    backtick, asterisk, opening bracket or pair of equals signs, in which
    every underscore comes straight after an ASCII letter, as in
    [snake_case_name], is returned by [renderInline] as it is. *)
Theorem underscores_in_words_kept (s : string) :
  contains "`" s = false -> contains "*" s = false ->
  contains "==" s = false -> contains "[" s = false ->
  inner_underscores None s = true ->
  renderInline s = Ok s.
Proof.
  intros Hc Hs He Hb Hu. unfold renderInline. rewrite process_inline_unfold.
  rewrite (sub_from_absent "![" image_re image_to);
    [|apply opens_with_lit2|now apply contains_longer].
  rewrite (sub_from_absent "[" link_re link_to);
    [|apply opens_with_lit|assumption].
  rewrite (sub_from_absent "`" code_re code_to);
    [|apply opens_with_lit|assumption].
  rewrite (sub_from_absent "==" mark_re mark_to);
    [|apply opens_with_lit2|assumption].
  rewrite (sub_from_absent "*" bold_star_re strong_to);
    [|apply opens_with_lit|assumption].
  rewrite (sub_from_absent "__" bold_under_re strong_to);
    [|apply opens_with_lit2|exact (inner_underscores_no_pair s None Hu)].
  rewrite (sub_from_absent "*" italic_star_re em_to);
    [|apply opens_with_lit|assumption].
  now rewrite italic_under_guarded.
Qed.

Lemma underscores_in_words_kept_witness :
  renderInline "call my_func_name(x_1) from snake_case_name"
  = Ok "call my_func_name(x_1) from snake_case_name".
Proof.
  apply (underscores_in_words_kept
           "call my_func_name(x_1) from snake_case_name"); reflexivity.
Defined.

(** ** Front matter *)

Import Site Written.

Lemma cut_none (sep s : string) :
  contains sep s = false -> cut sep s = None.
Proof.
  induction s as [|c s IH]; intros H; [reflexivity|].
  apply contains_false_inv in H as [Hs Hc].
  cbn [cut]. now rewrite Hs, (IH Hc).
Qed.

Lemma cut_found (sep s : string) :
  sep <> EmptyString -> contains sep s = true ->
  exists a b, cut sep s = Some (a, b).
Proof.
  intros Hsep. induction s as [|c s IH]; intros H.
  - destruct sep; [congruence|discriminate].
  - cbn [cut]. destruct (startswith sep (String c s)) eqn:E; [eauto|].
    change (contains sep (String c s))
      with (startswith sep (String c s) || contains sep s) in H.
    rewrite E in H. destruct (IH H) as (a & b & ->). eauto.
Qed.

Lemma read_lines_total (lines : list string) :
  forall d, exists d', read_lines d lines = Some d'.
Proof.
  induction lines as [|line rest IH]; intros d; cbn [read_lines]; [eauto|].
  destruct (contains ":" line) eqn:E; [|apply IH].
  cbn [split_max].
  destruct (cut_found ":" line ltac:(discriminate) E) as (a & b & ->).
  apply IH.
Qed.

(** X14: [parse_frontmatter] returns for every content: the unpacking of a
    header line into key and value cannot fail, a line being split only
    when it holds a colon, and the two parts it indexes exist. *)
Theorem parse_frontmatter_total (content : string) :
  exists frontmatter body,
    parse_frontmatter content = Some (frontmatter, body).
Proof.
  unfold parse_frontmatter.
  destruct (startswith "---" content); [|eauto].
  destruct (3 <=? List.length (split_max "---" 2 content))%nat eqn:L; [|eauto].
  apply Nat.leb_le in L.
  destruct (split_max "---" 2 content) as [|p0 [|p1 [|p2 ps]]];
    try (simpl in L; lia).
  cbn [nth_error].
  destruct (read_lines_total (split newline (strip p1)) []) as [d ->].
  eauto.
Qed.

(** X15: a content with no complete header comes back untouched, with no
    metadata: when it does not start with the marker, and when it starts
    with it but the marker does not occur again. *)
Theorem no_frontmatter (content : string) :
  startswith "---" content = false
  \/ contains "---" (slice_from 3 content) = false ->
  parse_frontmatter content = Some ([], content).
Proof.
  unfold parse_frontmatter. intros [H|H].
  - now rewrite H.
  - destruct (startswith "---" content) eqn:E; [|reflexivity].
    cbn [split_max]. destruct content as [|c content]; [discriminate|].
    cbn [cut]. rewrite E. cbn [String.length].
    rewrite (cut_none _ _ H). reflexivity.
Qed.

Lemma no_frontmatter_witness :
  parse_frontmatter ("--- draft" ++ nl ++ "title: x" ++ nl ++ "text")
  = Some ([], "--- draft" ++ nl ++ "title: x" ++ nl ++ "text").
Proof.
  apply (no_frontmatter ("--- draft" ++ nl ++ "title: x" ++ nl ++ "text")).
  right. reflexivity.
Defined.

Lemma startswith_app_sep (w : string) (c : ascii) (b : string) :
  mem c w = false ->
  forall a, startswith w (a ++ String c b) = startswith w a.
Proof.
  induction w as [|y w IH]; intros H a; [reflexivity|].
  cbn [mem] in H. apply orb_false_elim in H as [Hy Hw].
  destruct a as [|x a]; simpl append; cbn [startswith].
  - now rewrite Ascii.eqb_sym, Hy.
  - f_equal. now apply IH.
Qed.

Lemma contains_app_sep (w : string) (c : ascii) (a b : string) :
  mem c w = false ->
  contains w (a ++ String c b) = contains w a || contains w b.
Proof.
  intros H. induction a as [|x a IH].
  - change (contains w (EmptyString ++ String c b))
      with (startswith w (EmptyString ++ String c b) || contains w b).
    rewrite (startswith_app_sep w c b H). simpl.
    now rewrite orb_false_r.
  - change (contains w (String x a ++ String c b))
      with (startswith w (String x a ++ String c b)
            || contains w (a ++ String c b)).
    rewrite (startswith_app_sep w c b H), IH.
    change (contains w (String x a))
      with (startswith w (String x a) || contains w a).
    now rewrite orb_assoc.
Qed.

Lemma cut_through (sep : string) (c : ascii) (a r : string) :
  sep <> EmptyString -> mem c sep = false -> contains sep a = false ->
  cut sep (a ++ String c r)
  = match cut sep r with
    | Some (x, y) => Some (a ++ String c x, y)
    | None => None
    end.
Proof.
  intros Hsep Hc. induction a as [|x a IH]; intros Ha.
  - simpl append. cbn [cut].
    replace (startswith sep (String c r)) with false; [reflexivity|].
    destruct sep as [|y sep]; [congruence|].
    cbn [mem] in Hc. apply orb_false_elim in Hc as [Hy _].
    cbn [startswith]. now rewrite Ascii.eqb_sym, Hy.
  - apply contains_false_inv in Ha as [Hs Ha].
    simpl append. cbn [cut].
    change (String x (a ++ String c r)) with (String x a ++ String c r).
    rewrite (startswith_app_sep sep c r Hc), Hs. simpl append.
    rewrite (IH Ha). destruct (cut sep r) as [[x' y']|]; reflexivity.
Qed.

Lemma cut_char (c : ascii) (a r : string) :
  contains (String c EmptyString) a = false ->
  cut (String c EmptyString) (a ++ String c r) = Some (a, r).
Proof.
  induction a as [|x a IH]; intros H.
  - simpl append. cbn [cut startswith]. now rewrite Ascii.eqb_refl.
  - rewrite contains_char_cons in H. apply orb_false_elim in H as [Hx Ha].
    simpl append. cbn [cut startswith]. rewrite Hx. cbn [andb].
    now rewrite (IH Ha).
Qed.

(** The three parts of a document whose header holds no marker and ends
    with a newline. *)
Lemma split_written (h body : string) :
  contains "---" h = false ->
  split_max "---" 2 ("---" ++ h ++ nl ++ "---" ++ body)
  = [EmptyString; h ++ nl; body].
Proof.
  intros Hh. unfold nl. simpl append. cbn [split_max].
  change (cut "---" (String "-" (String "-" (String "-" ?r))))
    with (Some (EmptyString, r)).
  cbv beta iota.
  rewrite (cut_through "---" newline h
             (String "-" (String "-" (String "-" body)))
             ltac:(discriminate) eq_refl Hh).
  reflexivity.
Qed.

Lemma rstrip_unfold (c : ascii) (s : string) :
  rstrip (String c s)
  = match rstrip s with
    | EmptyString => if isspace c then EmptyString else String c EmptyString
    | r => String c r
    end.
Proof. reflexivity. Qed.

Lemma last_not_space_cons (c d : ascii) (s : string) :
  last_not_space (String c (String d s)) = last_not_space (String d s).
Proof. reflexivity. Qed.

Lemma rstrip_clean (s : string) :
  last_not_space s = true -> rstrip s = s.
Proof.
  induction s as [|c s IH]; [discriminate|]. destruct s as [|d s]; intros H.
  - simpl in H. apply negb_true_iff in H. simpl. now rewrite H.
  - rewrite last_not_space_cons in H. rewrite rstrip_unfold, (IH H).
    reflexivity.
Qed.

Lemma rstrip_drop_space (c : ascii) (s : string) :
  isspace c = true -> last_not_space s = true ->
  rstrip (s ++ String c EmptyString) = s.
Proof.
  intros Hc. induction s as [|x s IH]; [discriminate|].
  destruct s as [|d s]; intros H.
  - simpl in H. apply negb_true_iff in H. simpl. now rewrite Hc, H.
  - rewrite last_not_space_cons in H.
    change (String x (String d s) ++ String c EmptyString)
      with (String x (String d s ++ String c EmptyString)).
    rewrite rstrip_unfold, (IH H). reflexivity.
Qed.

Lemma clean_ends_inv (s : string) :
  clean_ends s = true ->
  exists c s', s = String c s' /\ isspace c = false
               /\ last_not_space s = true.
Proof.
  destruct s as [|c s']; [discriminate|]. cbn [clean_ends]. intros H.
  apply andb_prop in H as [H1 H2]. apply negb_true_iff in H1. eauto.
Qed.

Lemma strip_clean (s : string) : clean_ends s = true -> strip s = s.
Proof.
  intros H. destruct (clean_ends_inv s H) as (c & s' & -> & Hc & Hl).
  unfold strip. cbn [lstrip]. rewrite Hc. now apply rstrip_clean.
Qed.

Lemma last_not_space_app (a b : string) :
  b <> EmptyString -> last_not_space (a ++ b) = last_not_space b.
Proof.
  intros Hb. induction a as [|c a IH]; [reflexivity|].
  simpl append. destruct (a ++ b) as [|d r] eqn:E.
  - destruct a; [simpl in E; congruence|discriminate].
  - now rewrite last_not_space_cons.
Qed.

Lemma clean_ends_app (a m b : string) :
  clean_ends a = true -> clean_ends b = true ->
  clean_ends (a ++ m ++ b) = true.
Proof.
  intros Ha Hb.
  destruct (clean_ends_inv a Ha) as (c & a' & -> & Hc & _).
  destruct (clean_ends_inv b Hb) as (d & b' & -> & _ & Hl).
  simpl append. cbn [clean_ends]. rewrite Hc. cbn [negb andb].
  change (String c (a' ++ m ++ String d b'))
    with (String c a' ++ m ++ String d b').
  rewrite <- append_assoc, last_not_space_app by discriminate. exact Hl.
Qed.

Lemma entry_ok_inv (kw : string * string) :
  entry_ok kw = true ->
  clean_ends (fst kw) = true /\ clean_ends (snd kw) = true
  /\ contains ":" (fst kw) = false /\ contains nl (fst kw) = false
  /\ contains nl (snd kw) = false
  /\ contains "---" (entry_line kw) = false.
Proof.
  unfold entry_ok. intros H.
  repeat (apply andb_prop in H as [H ?]).
  repeat match goal with
         | X : negb _ = true |- _ => apply negb_true_iff in X
         end.
  auto 10.
Qed.

Lemma entry_line_clean (kw : string * string) :
  entry_ok kw = true -> clean_ends (entry_line kw) = true.
Proof.
  intros H. destruct (entry_ok_inv kw H) as (Hk & Hv & _).
  now apply clean_ends_app.
Qed.

Lemma entry_line_one_line (kw : string * string) :
  entry_ok kw = true -> contains nl (entry_line kw) = false.
Proof.
  intros H. destruct (entry_ok_inv kw H) as (_ & _ & _ & Hk & Hv & _).
  unfold entry_line, nl in *. rewrite !contains_char_app, Hk, Hv.
  reflexivity.
Qed.

Lemma join_cons2 (sep x y : string) (ys : list string) :
  join sep (x :: y :: ys) = x ++ sep ++ join sep (y :: ys).
Proof. reflexivity. Qed.

(** The header written for a sequence of entries. *)
Lemma header_clean (e : string * string) (es : list (string * string)) :
  forallb entry_ok (e :: es) = true ->
  clean_ends (join nl (map entry_line (e :: es))) = true.
Proof.
  revert e. induction es as [|e' es IH]; intros e H;
    cbn [forallb] in H; apply andb_prop in H as [He H].
  - now apply entry_line_clean.
  - cbn [map]. rewrite join_cons2. apply clean_ends_app.
    + now apply entry_line_clean.
    + now apply IH.
Qed.

Lemma header_no_marker (es : list (string * string)) :
  forallb entry_ok es = true ->
  contains "---" (join nl (map entry_line es)) = false.
Proof.
  induction es as [|e es IH]; intros H; [reflexivity|].
  cbn [forallb] in H. apply andb_prop in H as [He H].
  destruct (entry_ok_inv e He) as (_ & _ & _ & _ & _ & Hm).
  destruct es as [|e' es]; [exact Hm|].
  cbn [map]. rewrite join_cons2. unfold nl at 1. simpl append.
  rewrite (contains_app_sep "---" newline) by reflexivity.
  rewrite Hm. now apply IH.
Qed.

Lemma split_one_line (a : string) :
  contains nl a = false -> split newline a = [a].
Proof.
  induction a as [|c a IH]; intros H; [reflexivity|].
  unfold nl in H. rewrite contains_char_cons in H.
  apply orb_false_elim in H as [Hc Ha].
  cbn [split]. rewrite Ascii.eqb_sym, Hc. now rewrite (IH Ha).
Qed.

Lemma header_lines (e : string * string) (es : list (string * string)) :
  forallb entry_ok (e :: es) = true ->
  split newline (join nl (map entry_line (e :: es)))
  = map entry_line (e :: es).
Proof.
  revert e. induction es as [|e' es IH]; intros e H;
    cbn [forallb] in H; apply andb_prop in H as [He H].
  - apply split_one_line. now apply entry_line_one_line.
  - cbn [map]. rewrite join_cons2. unfold nl at 1. simpl append.
    rewrite split_first_line by now apply entry_line_one_line.
    f_equal. now apply IH.
Qed.

Lemma read_entry_lines (es : list (string * string)) :
  forallb entry_ok es = true ->
  forall d,
    read_lines d (map entry_line es)
    = Some (fold_left (fun d kv => dict_set (fst kv) (snd kv) d)
              (map stored es) d).
Proof.
  induction es as [|e es IH]; intros H d; [reflexivity|].
  cbn [forallb] in H. apply andb_prop in H as [He H].
  destruct (entry_ok_inv e He) as (Hk & Hv & Hc & _).
  cbn [map read_lines fold_left]. unfold entry_line at 1 2.
  simpl append.
  rewrite (contains_char_app ":" (fst e)). rewrite Hc.
  change (contains ":" (String ":" ?r)) with true. cbn [orb].
  cbn [split_max]. rewrite (cut_char ":" (fst e)) by exact Hc.
  rewrite (strip_clean _ Hk).
  replace (strip (String " " (snd e))) with (snd e).
  - apply (IH H).
  - symmetry. unfold strip. cbn [lstrip].
    change (isspace " ") with true. cbv iota. now apply strip_clean.
Qed.

Lemma dict_set_fresh (k v : string) (d : dict) :
  ~ In k (map fst d) -> dict_set k v d = (d ++ [(k, v)])%list.
Proof.
  induction d as [|[k' v'] d IH]; intros H; [reflexivity|].
  cbn [dict_set]. destruct (String.eqb k' k) eqn:E.
  - apply String.eqb_eq in E. subst k'. destruct H. now left.
  - cbn [app]. f_equal. apply IH. intros Hin. apply H. now right.
Qed.

Lemma fold_set_fresh (l : list (string * string)) :
  forall acc,
    NoDup (map fst (acc ++ l)) ->
    fold_left (fun d kv => dict_set (fst kv) (snd kv) d) l acc
    = (acc ++ l)%list.
Proof.
  induction l as [|[k v] l IH]; intros acc H.
  - now rewrite app_nil_r.
  - cbn [fold_left fst snd]. rewrite dict_set_fresh.
    + rewrite IH; rewrite <- app_assoc; [reflexivity|exact H].
    + rewrite map_app in H. cbn [map fst] in H.
      apply NoDup_remove_2 in H. intros Hin. apply H.
      apply in_or_app. now left.
Qed.

Lemma dict_get_in (d : dict) (k v : string) :
  NoDup (map fst d) -> In (k, v) d -> dict_get k d = Some v.
Proof.
  induction d as [|[k' v'] d IH]; intros N Hin; [destruct Hin|].
  cbn [map fst] in N. inversion N as [|? ? Hk N']; subst.
  cbn [dict_get]. destruct Hin as [E|Hin].
  - inversion E; subst. now rewrite String.eqb_refl.
  - destruct (String.eqb k' k) eqn:E; [|now apply IH].
    apply String.eqb_eq in E. subst k'. destruct Hk.
    apply (in_map fst d (k, v) Hin).
Qed.

(** X16: a header written out is read back. For entries that fit on a line
    each (key and value with clean ends and no newline, no colon in the
    key, no marker in the line), the document made of the marker, the
    lines [key: value], the marker and a body gives the dictionary the
    assignments build, each value without the quotes around it, and the
    stripped body; a colon inside a value stays in the value. With
    distinct keys the dictionary lists the entries in their order, and
    looking a key up gives its value. *)
Theorem frontmatter_round_trip (entries : list (string * string))
  (body : string) :
  forallb entry_ok entries = true ->
  parse_frontmatter (write_frontmatter entries body)
  = Some (dict_of (map stored entries), strip body)
  /\ (NoDup (map fst entries) ->
      dict_of (map stored entries) = map stored entries
      /\ forall key value,
           In (key, value) entries ->
           dict_get key (dict_of (map stored entries))
           = Some (strip_chars quotes value)).
Proof.
  intros H. split.
  - change (write_frontmatter entries body)
      with ("---" ++ (nl ++ join nl (map entry_line entries))
                  ++ nl ++ "---" ++ body).
    unfold parse_frontmatter.
    pose proof (header_no_marker entries H) as Hm.
    rewrite (split_written (nl ++ join nl (map entry_line entries)) body)
      by exact Hm.
    change (startswith "---" ("---" ++ ?r)) with true.
    cbn [List.length Nat.leb nth_error]. cbv iota.
    destruct entries as [|e es].
    + reflexivity.
    + replace (strip ((nl ++ join nl (map entry_line (e :: es))) ++ nl))
        with (join nl (map entry_line (e :: es))).
      * rewrite (header_lines e es H), (read_entry_lines (e :: es) H).
        reflexivity.
      * symmetry. pose proof (header_clean e es H) as Hc.
        generalize dependent (join nl (map entry_line (e :: es))).
        intros J _ Hc.
        destruct (clean_ends_inv J Hc) as (c & s' & -> & Hs & Hl).
        unfold strip, nl at 1. simpl append. cbn [lstrip].
        change (isspace newline) with true. cbv iota. rewrite Hs.
        change (String c (s' ++ nl)) with (String c s' ++ nl).
        now apply rstrip_drop_space.
  - intros N.
    assert (N' : NoDup (map fst (map stored entries)))
      by (rewrite map_map; exact N).
    assert (E : dict_of (map stored entries) = map stored entries)
      by (unfold dict_of; now rewrite fold_set_fresh).
    split; [exact E|]. intros key value Hin. rewrite E.
    apply (dict_get_in _ key (strip_chars quotes value) N').
    apply (in_map stored entries (key, value) Hin).
Qed.

Lemma frontmatter_round_trip_witness :
  parse_frontmatter
    (write_frontmatter
       [("title", "My first post"); ("link", "'http://a.b/c'")]
       (nl ++ nl ++ "Welcome" ++ nl))
  = Some ([("title", "My first post"); ("link", "http://a.b/c")], "Welcome").
Proof.
  destruct (frontmatter_round_trip
              [("title", "My first post"); ("link", "'http://a.b/c'")]
              (nl ++ nl ++ "Welcome" ++ nl) eq_refl) as [P _].
  exact P.
Defined.

Lemma lstrip_no_char (c : ascii) (s : string) :
  contains (String c EmptyString) s = false ->
  contains (String c EmptyString) (lstrip s) = false.
Proof.
  induction s as [|x s IH]; intros H; [reflexivity|].
  cbn [lstrip]. destruct (isspace x); [|exact H].
  rewrite contains_char_cons in H. apply orb_false_elim in H as [_ H].
  now apply IH.
Qed.

Lemma rstrip_no_char (c : ascii) (s : string) :
  contains (String c EmptyString) s = false ->
  contains (String c EmptyString) (rstrip s) = false.
Proof.
  induction s as [|x s IH]; intros H; [reflexivity|].
  rewrite contains_char_cons in H. apply orb_false_elim in H as [Hx H].
  specialize (IH H). rewrite rstrip_unfold.
  destruct (rstrip s) as [|y r].
  - destruct (isspace x); [reflexivity|].
    rewrite contains_char_cons, Hx. reflexivity.
  - now rewrite contains_char_cons, Hx, IH.
Qed.

Lemma split_no_char (c : ascii) (s : string) :
  contains (String c EmptyString) s = false ->
  Forall (fun l => contains (String c EmptyString) l = false)
    (split newline s).
Proof.
  induction s as [|x s IH]; intros H.
  - repeat constructor.
  - rewrite contains_char_cons in H. apply orb_false_elim in H as [Hx H].
    specialize (IH H). cbn [split]. destruct (Ascii.eqb x newline).
    + constructor; [reflexivity|exact IH].
    + destruct (split newline s) as [|w ws].
      * constructor; [|constructor].
        rewrite contains_char_cons, Hx. reflexivity.
      * inversion IH as [|? ? Hw Hws]; subst. constructor; [|exact Hws].
        now rewrite contains_char_cons, Hx, Hw.
Qed.

Lemma read_lines_no_colon (lines : list string) (d : dict) :
  Forall (fun l => contains ":" l = false) lines ->
  read_lines d lines = Some d.
Proof.
  induction 1 as [|l ls Hl _ IH]; [reflexivity|].
  cbn [read_lines]. now rewrite Hl.
Qed.

(** X17: what stands between the two markers is taken off even when it is
    no header: for a text with no colon (and no marker) closed by a
    newline, the content that starts with the marker, the text and the
    marker again gives no metadata and, as body, only what follows the
    second marker. A document that opens with a rule and holds a second
    rule loses the text between them. *)
Theorem text_between_markers_dropped (h body : string) :
  contains "---" h = false -> contains ":" h = false ->
  parse_frontmatter ("---" ++ h ++ nl ++ "---" ++ body)
  = Some ([], strip body).
Proof.
  intros Hm Hc. unfold parse_frontmatter.
  rewrite (split_written h body Hm).
  change (startswith "---" ("---" ++ ?r)) with true.
  cbn [List.length Nat.leb nth_error]. cbv iota.
  rewrite read_lines_no_colon; [reflexivity|].
  apply split_no_char. unfold strip.
  apply rstrip_no_char, lstrip_no_char.
  rewrite contains_char_app, Hc. reflexivity.
Qed.

Lemma text_between_markers_dropped_witness :
  parse_frontmatter
    ("---" ++ nl ++ "An opening paragraph" ++ nl ++ "---" ++ nl ++ "The rest")
  = Some ([], "The rest").
Proof.
  exact (text_between_markers_dropped (nl ++ "An opening paragraph")
           (nl ++ "The rest") eq_refl eq_refl).
Defined.
